(** * beancount: positions, lots and the summarization engine

    A shallow embedding of [beancount/core/position.py] together with the
    parts of the ledger core its callers rely on, and the properties the
    design document states about them.

    Layout of the development:
    - [Regex]: a backtracking matcher for the patterns of [re.match];
    - [number], [amount]: decimal numbers with the rounding of Python's
      decimal context, and the amount primitives used by [position.py];
    - [Lot], [Position] and the methods of [Position], first on values,
      then ([Heap]) on objects that live in a store and can be aliased;
    - [Parser]: [Position.from_string];
    - [Summarize]: inventories and the summarization engine;
    - the properties, in the second half of the file. *)

From Stdlib Require Import ZArith QArith Qcanon Qpower Qround Lia Bool.
From Stdlib Require Import Strings.String Strings.Ascii.
From stdpp Require Import base option list strings gmap sorting pretty.

Local Open Scope string_scope.
Local Open Scope Z_scope.
Local Open Scope list_scope.

(** ** Exceptions and fallible results *)

(** The Python exception classes that the modelled code can raise.  The
    last constructor is not one of them: it stands for a reference that is
    not in the store, which no Python program can forge. *)
Inductive exn : Type :=
| ValueError (msg : string)        (* raise ValueError(msg) *)
| AssertionError (msg : string)    (* a failed assert statement *)
| DivisionByZero                   (* decimal.DivisionByZero: x / 0, x <> 0 *)
| InvalidOperation                 (* decimal.InvalidOperation: 0 / 0, or a
                                      text that spells no number *)
| NoSuchObject.

(** A computation either returns a value or raises. *)
Inductive result (A : Type) : Type :=
| Ok (a : A)
| Raise (e : exn).
Arguments Ok {A} a.
Arguments Raise {A} e.

(** Sequencing propagates the first exception ([x ← m; k] below). *)
Global Instance result_ret : MRet result := fun A a => Ok a.
Global Instance result_bind : MBind result := fun A B f m =>
  match m with
  | Ok a => f a
  | Raise e => Raise e
  end.

Definition is_ok {A : Type} (m : result A) : bool :=
  match m with Ok _ => true | Raise _ => false end.

(** [raises_ValueError m]: the call ended in a [ValueError]. *)
Definition raises_ValueError {A : Type} (m : result A) : Prop :=
  exists msg, m = Raise (ValueError msg).

(** ** Regular expressions, as [re.match] runs them *)

Module Regex.

(** The fragment of Python's pattern language that [position.py] uses.
    Repetition is greedy and alternatives are tried left to right, with
    backtracking. *)
Inductive regex : Type :=
| Eps                               (* the empty pattern *)
| Class (c : ascii -> bool)         (* one character of a class *)
| Cat (r1 r2 : regex)               (* r1 r2 *)
| Or (r1 r2 : regex)                (* r1 | r2, r1 first *)
| Star (r : regex)                  (* r*, greedy *)
| Group (i : nat) (r : regex)       (* ( r ), capturing group number i *)
| Eos.                              (* $ *)

(** [r?], [r+] and [r{0,n}], all greedy. *)
Definition Opt (r : regex) : regex := Or r Eps.
Definition Plus (r : regex) : regex := Cat r (Star r).
Fixpoint Upto (n : nat) (r : regex) : regex :=
  match n with
  | O => Eps
  | S n' => Opt (Cat r (Upto n' r))
  end.

(** A sequence of patterns. *)
Fixpoint seq (rs : list regex) : regex :=
  match rs with
  | [] => Eps
  | r :: rs' => Cat r (seq rs')
  end.

(** A literal character and a literal set of characters. *)
Definition Chr (a : ascii) : regex := Class (Ascii.eqb a).
Definition one_of (set : string) (a : ascii) : bool :=
  existsb (Ascii.eqb a) (list_ascii_of_string set).
Definition none_of (set : string) (a : ascii) : bool := negb (one_of set a).

Definition code (a : ascii) : N := N_of_ascii a.
Definition in_range (lo hi : ascii) (a : ascii) : bool :=
  (code lo <=? code a)%N && (code a <=? code hi)%N.

(** [\d] (within Latin-1, the ASCII digits). *)
Definition is_digit : ascii -> bool := in_range "0" "9".
Definition is_upper : ascii -> bool := in_range "A" "Z".

(** [\s] and [str.isspace]: tab to carriage return, the four separators
    0x1c-0x1f, the space, and in Latin-1 also 0x85 and 0xa0. *)
Definition is_space (a : ascii) : bool :=
  let n := code a in
  ((9 <=? n) && (n <=? 13) || (28 <=? n) && (n <=? 32) ||
   (n =? 133) || (n =? 160))%N.

(** The groups captured so far, most recent first. *)
Definition groups : Type := list (nat * string).

Definition group (i : nat) (g : groups) : option string :=
  snd <$> List.find (fun b => Nat.eqb (fst b) i) g.

(** What a successful match consumed, given the text before and after. *)
Definition consumed (before after : string) : string :=
  substring 0 (String.length before - String.length after) before.

Definition cont : Type := string -> groups -> option groups.

(** Iterations of a starred pattern: take one more if it consumes
    something and the rest then matches, else stop here. *)
Fixpoint star_iter (step : string -> groups -> cont -> option groups)
    (fuel : nat) (s : string) (g : groups) (k : cont) : option groups :=
  match fuel with
  | O => k s g
  | S fuel' =>
      match step s g (fun s' g' =>
                        if (String.length s' <? String.length s)%nat
                        then star_iter step fuel' s' g' k
                        else None) with
      | Some m => Some m
      | None => k s g
      end
  end.

(** [run r s g k]: match [r] at the start of [s], then continue with [k]
    on the rest; [None] when every alternative fails. *)
Fixpoint run (r : regex) (s : string) (g : groups) (k : cont)
    {struct r} : option groups :=
  match r with
  | Eps => k s g
  | Class c =>
      match s with
      | String a s' => if c a then k s' g else None
      | EmptyString => None
      end
  | Cat r1 r2 => run r1 s g (fun s' g' => run r2 s' g' k)
  | Or r1 r2 =>
      match run r1 s g k with
      | Some m => Some m
      | None => run r2 s g k
      end
  | Star r1 => star_iter (run r1) (String.length s) s g k
  | Group i r1 => run r1 s g (fun s' g' => k s' ((i, consumed s s') :: g'))
  | Eos =>
      match s with
      | EmptyString => k s g
      | String a EmptyString => if Ascii.eqb a "010" then k s g else None
      | _ => None
      end
  end.

(** [re.match(r, s)]: anchored at the start, not at the end. *)
Definition re_match (r : regex) (s : string) : option groups :=
  run r s [] (fun _ g => Some g).

(** [re.split('[...]', s)] for a one-character class. *)
Fixpoint split_on (sep : ascii -> bool) (s : string) : list string :=
  match s with
  | EmptyString => [EmptyString]
  | String a s' =>
      if sep a then EmptyString :: split_on sep s'
      else match split_on sep s' with
           | [] => [String a EmptyString]
           | w :: ws => String a w :: ws
           end
  end.

(** [str.strip()]. *)
Fixpoint lstrip (s : string) : string :=
  match s with
  | String a s' => if is_space a then lstrip s' else s
  | EmptyString => EmptyString
  end.

Fixpoint rstrip (s : string) : string :=
  match s with
  | EmptyString => EmptyString
  | String a s' =>
      match rstrip s' with
      | EmptyString => if is_space a then EmptyString else String a EmptyString
      | t => String a t
      end
  end.

Definition strip (s : string) : string := rstrip (lstrip s).

End Regex.

(** ** Decimal numbers: decimal.Decimal and beancount.core.number *)

Module number.

(** [Decimal] is Python's [decimal.Decimal], which [beancount.core.number]
    hands on: a decimal floating-point number, that is a sign, a coefficient
    of any length and an exponent.  [==], [<] and the truth value look at
    the value only, so a number is embedded as its value, a canonical
    rational, on which [==] is Leibniz equality; the exponent, which only
    printing shows, is dropped.  A literal and [Decimal(x)] are exact,
    whatever their length.  An arithmetic operation computes the exact
    result and rounds it to the precision of the context: 28 significant
    digits, a tie going to the even digit (the default context, which the
    code never changes).  The exponent range of the context (results at or
    beyond 10^1000000 overflow) and the special values (infinities, NaNs)
    are not modelled. *)
Abbreviation Decimal := Qc.

(** Modelled from the spec: [beancount/core/number.py] is not part of the
    sources at hand; [ZERO] is the decimal zero. *)
Definition ZERO : Decimal := 0%Qc.

(** [a == b] on numbers. *)
Definition eqb (a b : Decimal) : bool := bool_decide (a = b).

(** [a < b] on numbers. *)
Definition ltb (a b : Decimal) : bool := bool_decide (a < b)%Qc.

(** Truth value of a number: [bool(x)] is [x != 0]. *)
Definition truthy (a : Decimal) : bool := negb (eqb a ZERO).

(** *** The rounding of the context *)

(** [getcontext().prec] *)
Definition PREC : Z := 28.

Definition ten : Q := inject_Z 10.

(** The number of decimal digits of a positive integer. *)
Fixpoint digits_upto (fuel : nat) (n : Z) : Z :=
  match fuel with
  | O => 1
  | S fuel' => if n <? 10 then 1 else 1 + digits_upto fuel' (n / 10)
  end.

Definition ndigits (n : Z) : Z := digits_upto (Z.to_nat (Z.log2 n)) n.

(** The exponent of the leading digit of a positive number: the [e] with
    [10^e <= x < 10^(e+1)]. *)
Definition adjusted (x : Q) : Z :=
  let e := ndigits (Qnum x) - ndigits (Zpos (Qden x)) in
  if Qle_bool (ten ^ e) x then e else e - 1.

(** [ROUND_HALF_EVEN] to an integer, for a number that is not negative. *)
Definition half_even (y : Q) : Z :=
  let f := Qfloor y in
  match (y - inject_Z f ?= 1 # 2)%Q with
  | Lt => f
  | Gt => f + 1
  | Eq => if Z.even f then f else f + 1
  end.

(** A positive number cut to [PREC] significant digits: the digits from
    the leading one down to exponent [s] are kept, the rest is rounded
    away. *)
Definition quantize (x : Q) : Q :=
  let s := adjusted x - (PREC - 1) in
  (inject_Z (half_even (x * ten ^ (- s))) * ten ^ s)%Q.

(** What the context does to the exact result of an operation: the sign is
    kept and the magnitude rounded. *)
Definition round (x : Decimal) : Decimal :=
  match (x ?= 0)%Qc with
  | Eq => x
  | Gt => Q2Qc (quantize x)
  | Lt => (- Q2Qc (quantize (- this x)))%Qc
  end.

(** [- a], [a + b], [a * b] *)
Definition neg (a : Decimal) : Decimal := round (- a)%Qc.
Definition add (a b : Decimal) : Decimal := round (a + b)%Qc.
Definition mul (a b : Decimal) : Decimal := round (a * b)%Qc.

(** [a / b] raises when the divisor is zero. *)
Definition div (a b : Decimal) : result Decimal :=
  if eqb b ZERO then
    if eqb a ZERO then Raise InvalidOperation else Raise DivisionByZero
  else Ok (round (a / b)%Qc).

(** *** Reading numbers *)

(** [NUMBER_RE] and [D] are not part of the sources at hand either.  The
    parser of positions takes them as parameters; the definitions below are
    the instance it is run with on examples.  The pattern: an optional sign,
    spaces, digits with thousands separators, an optional fraction, every
    part of which may be missing. *)
Definition NUMBER_RE : Regex.regex :=
  Regex.seq [Regex.Opt (Regex.Class (Regex.one_of "+-"));
             Regex.Star (Regex.Class Regex.is_space);
             Regex.Star (Regex.Class (fun a => Regex.is_digit a || Regex.one_of "," a));
             Regex.Opt (Regex.Cat (Regex.Chr ".") (Regex.Star (Regex.Class Regex.is_digit)))].

(** The longest prefix of characters of a class, and the rest. *)
Fixpoint span (f : ascii -> bool) (s : list ascii) : list ascii * list ascii :=
  match s with
  | [] => ([], [])
  | a :: rest =>
      if f a then let '(taken, others) := span f rest in (a :: taken, others)
      else ([], s)
  end.

(** [int(digits)] *)
Definition digits_value (ds : list ascii) : Z :=
  fold_left (fun n a => 10 * n + (Z.of_N (Regex.code a) - 48)) ds 0.

(** An optional sign: whether it is a minus, and the rest. *)
Definition read_sign (s : list ascii) : bool * list ascii :=
  match s with
  | a :: rest =>
      if Ascii.eqb a "-" then (true, rest)
      else if Ascii.eqb a "+" then (false, rest)
      else (false, s)
  | [] => (false, [])
  end.

(** The end of a numeric string: nothing, or [E], an optional sign and at
    least one digit. *)
Definition read_exponent (s : list ascii) : option Z :=
  match s with
  | [] => Some 0
  | a :: rest =>
      if Regex.one_of "eE" a then
        let '(negative, rest1) := read_sign rest in
        match span Regex.is_digit rest1 with
        | ((_ :: _) as ds, []) =>
            Some (if negative then - digits_value ds else digits_value ds)
        | _ => None
        end
      else None
  end.

(** [Decimal(text)]: spaces around the text and underscores are dropped;
    what is left must be an optional sign, digits with an optional point
    among them, at least one digit in all, and an optional exponent.  The
    value is exact.  The spellings of infinities and NaNs, which hold
    letters that [NUMBER_RE] never matches, have no value here and are
    turned down as well. *)
Definition Decimal_of_string (text : string) : result Decimal :=
  let s := List.filter (fun a => negb (Ascii.eqb a "_"))
                       (list_ascii_of_string (Regex.strip text)) in
  let '(negative, s1) := read_sign s in
  let '(int_part, s2) := span Regex.is_digit s1 in
  let '(frac_part, s3) :=
    match s2 with
    | a :: rest => if Ascii.eqb a "." then span Regex.is_digit rest else ([], s2)
    | [] => ([], [])
    end in
  match int_part ++ frac_part, read_exponent s3 with
  | (_ :: _) as ds, Some e =>
      let coefficient := if negative then - digits_value ds else digits_value ds in
      Ok (Q2Qc (inject_Z coefficient * ten ^ (e - Z.of_nat (List.length frac_part))))
  | _, _ => Raise InvalidOperation
  end.

(** [D(text)]: the empty text reads as zero; otherwise the thousands
    separators are removed and the rest is handed to [Decimal]. *)
Definition D (text : string) : result Decimal :=
  if String.eqb text EmptyString then Ok ZERO
  else Decimal_of_string
         (string_of_list_ascii
            (List.filter (fun a => negb (Ascii.eqb a ","))
                         (list_ascii_of_string text))).

(** The number that a literal of the examples spells. *)
Definition dec (literal : string) : Decimal :=
  match D literal with
  | Ok d => d
  | Raise _ => ZERO
  end.

End number.

Abbreviation Decimal := number.Decimal.
Abbreviation ZERO := number.ZERO.
Abbreviation dec := number.dec.

(** ** beancount.core.amount *)

(** Modelled from the spec: [beancount/core/amount.py] is not part of the
    sources at hand.  An Amount is a (decimal number, currency code) pair. *)
Record Amount : Type := mkAmount {
  amount_number : Decimal;
  amount_currency : string
}.

Module amount.

(** Modelled from the spec: [amount_mult(amount, number)] multiplies the
    number of an amount, as decimals are multiplied, and keeps its
    currency. *)
Definition amount_mult (a : Amount) (n : Decimal) : Amount :=
  mkAmount (number.mul (amount_number a) n) (amount_currency a).

(** Modelled from the spec: two amounts are equal when number and
    currency are. *)
Definition eqb (a b : Amount) : bool :=
  number.eqb (amount_number a) (amount_number b) &&
  String.eqb (amount_currency a) (amount_currency b).

(** [CURRENCY_RE], the instance used on examples: a capital letter, up to
    ten capitals, digits or one of ['._-], and a capital or digit. *)
Definition CURRENCY_RE : Regex.regex :=
  Regex.seq [Regex.Class Regex.is_upper;
             Regex.Upto 10 (Regex.Class (fun a =>
               Regex.is_upper a || Regex.is_digit a || Regex.one_of "'._-" a));
             Regex.Class (fun a => Regex.is_upper a || Regex.is_digit a)].

End amount.

(** ** datetime.date *)

Module datetime.

(** A calendar date; [date_new] below is the only way the parser builds one. *)
Record date : Type := mkDate {
  year : Z;
  month : Z;
  day : Z
}.

Definition is_leap (y : Z) : bool :=
  (y mod 4 =? 0) && (negb (y mod 100 =? 0) || (y mod 400 =? 0)).

Definition days_in_month (y m : Z) : Z :=
  if m =? 2 then (if is_leap y then 29 else 28)
  else if (m =? 4) || (m =? 6) || (m =? 9) || (m =? 11) then 30
  else 31.

(** [datetime.date(year, month, day)] checks its arguments. *)
Definition date_new (y m d : Z) : result date :=
  if negb ((1 <=? y) && (y <=? 9999)) then
    Raise (ValueError ("year " +:+ pretty y +:+ " is out of range"))
  else if negb ((1 <=? m) && (m <=? 12)) then
    Raise (ValueError "month must be in 1..12")
  else if negb ((1 <=? d) && (d <=? days_in_month y m)) then
    Raise (ValueError "day is out of range for month")
  else Ok (mkDate y m d).

(** Dates compare as (year, month, day) triples. *)
Definition ltb (a b : date) : bool :=
  if negb (year a =? year b) then year a <? year b
  else if negb (month a =? month b) then month a <? month b
  else day a <? day b.

Definition leb (a b : date) : bool := negb (ltb b a).

(** [d - datetime.timedelta(days=1)], for a date after 0001-01-01. *)
Definition pred_day (d : date) : date :=
  if 1 <? day d then mkDate (year d) (month d) (day d - 1)
  else if 1 <? month d then
    mkDate (year d) (month d - 1) (days_in_month (year d) (month d - 1))
  else mkDate (year d - 1) 12 31.

Definition eqb (a b : date) : bool :=
  (year a =? year b) && (month a =? month b) && (day a =? day b).

End datetime.

Abbreviation date := datetime.date.

(** ** position.py: Lot and Position *)

(** [Lot = namedtuple('Lot', 'currency cost lot_date')]: the currency is
    never null, the cost and the acquisition date are optional. *)
Record Lot : Type := mkLot {
  currency : string;
  cost : option Amount;
  lot_date : option date
}.

(** A Position is a number of units of a lot.  The lot of a booked position
    is a [Lot]; the provisional [LotSpec] tag of the parsing phase is outside
    this model, and so is a position without a number. *)
Record Position : Type := mkPosition {
  lot : Lot;
  number : Decimal
}.

(** Equality of named tuples is equality of their fields. *)
Definition option_eqb {A : Type} (eqb : A -> A -> bool) (a b : option A) : bool :=
  match a, b with
  | Some x, Some y => eqb x y
  | None, None => true
  | _, _ => false
  end.

Definition Lot_eqb (a b : Lot) : bool :=
  String.eqb (currency a) (currency b) &&
  option_eqb amount.eqb (cost a) (cost b) &&
  option_eqb datetime.eqb (lot_date a) (lot_date b).

(** [CURRENCY_ORDER], a dict, and [NCURRENCIES = len(CURRENCY_ORDER)]. *)
Definition CURRENCY_ORDER : list (string * Z) :=
  [("USD", 0); ("EUR", 1); ("JPY", 2); ("CAD", 3);
   ("GBP", 4); ("AUD", 5); ("NZD", 6); ("CHF", 7)].

Definition NCURRENCIES : Z := Z.of_nat (List.length CURRENCY_ORDER).

(** [d.get(key, default)] on a dict given by its items. *)
Definition dict_get {V : Type} (d : list (string * V)) (key : string) (default : V) : V :=
  match List.find (fun kv => String.eqb (fst kv) key) d with
  | Some kv => snd kv
  | None => default
  end.

(** [currency in CURRENCY_ORDER] *)
Definition known_currency (c : string) : bool :=
  existsb (fun kv => String.eqb (fst kv) c) CURRENCY_ORDER.

Module position.

Local Abbreviation lot_cost := cost.

(** [Position.__eq__(self, other)], [other] being a Position or None. *)
Definition __eq__ (self : Position) (other : option Position) : bool :=
  match other with
  | None => number.eqb (number self) ZERO
  | Some o => number.eqb (number self) (number o) && Lot_eqb (lot self) (lot o)
  end.

(** [Position.__copy__]: the lot is shared, the number duplicated. *)
Definition __copy__ (self : Position) : Position :=
  mkPosition (lot self) (number self).

(** [Position.get_units] *)
Definition get_units (self : Position) : Amount :=
  mkAmount (number self) (currency (lot self)).

(** [Position.get_cost] *)
Definition get_cost (self : Position) : Amount :=
  match cost (lot self) with
  | None => mkAmount (number self) (currency (lot self))
  | Some c => amount.amount_mult c (number self)
  end.

(** [Position.get_weight(self, price=None)] *)
Definition get_weight (self : Position) (price : option Amount) : result Amount :=
  let l := lot self in
  match cost l with
  | Some c => Ok (amount.amount_mult c (number self))
  | None =>
      match price with
      | Some pr =>
          if String.eqb (currency (lot self)) (amount_currency pr)
          then Raise (AssertionError "Invalid currency for price")
          else Ok (amount.amount_mult pr (number self))
      | None => Ok (mkAmount (number self) (currency (lot self)))
      end
  end.

(** [Position.cost]: the position itself when the lot has no cost. *)
Definition cost (self : Position) : Position :=
  match lot_cost (lot self) with
  | None => self
  | Some c => mkPosition (mkLot (amount_currency c) None None)
                         (number.mul (number self) (amount_number c))
  end.

(** [Position.add(self, number)] assigns [self.number + number] to
    [self.number]; this is the value of the object afterwards. *)
Definition add (self : Position) (n : Decimal) : Position :=
  mkPosition (lot self) (number.add (number self) n).

(** [Position.get_negative], also [__neg__]: [Decimal(-self.number)]. *)
Definition get_negative (self : Position) : Position :=
  mkPosition (lot self) (number.neg (number self)).

Definition __neg__ := get_negative.

(** [Position.from_amounts(amount, cost_amount=None)] *)
Definition from_amounts (a : Amount) (cost_amount : option Amount) : Position :=
  mkPosition (mkLot (amount_currency a) cost_amount None) (amount_number a).

End position.

(** *** The sort order of positions *)

Section Ordering.

(** What [sortkey] and [__lt__] take from [beancount.core.amount], which is
    not part of the sources at hand: the truth value of an amount, the
    constant [NULL_AMOUNT], and the order of amounts. *)
Variable amount_bool : Amount -> bool.
Variable NULL_AMOUNT : Amount.
Variable amount_lt : Amount -> Amount -> bool.

(** [x or default], for an optional amount. *)
Definition amount_or (x : option Amount) (default : Amount) : Amount :=
  match x with
  | Some a => if amount_bool a then a else default
  | None => default
  end.

(** [Position.sortkey] *)
Definition sortkey (self : Position) : Z * Amount * Decimal :=
  let l := lot self in
  let c := currency l in
  let order_units :=
    dict_get CURRENCY_ORDER c (NCURRENCIES + Z.of_nat (String.length c)) in
  (order_units, amount_or (cost l) NULL_AMOUNT, number self).

(** [a < b] on such triples: the first component that differs decides. *)
Definition tuple_lt (a b : Z * Amount * Decimal) : bool :=
  let '(o1, c1, n1) := a in
  let '(o2, c2, n2) := b in
  if negb (o1 =? o2) then o1 <? o2
  else if negb (amount.eqb c1 c2) then amount_lt c1 c2
  else number.ltb n1 n2.

(** [Position.__lt__] *)
Definition __lt__ (self other : Position) : bool :=
  tuple_lt (sortkey self) (sortkey other).

End Ordering.

(** *** Positions as objects *)

(** Python positions are objects: a method receives a reference, may return
    the very reference it was given, and may assign to the attributes of
    the object behind it.  The store below keeps the objects; the methods
    are the ones of [position], run against it. *)
Module Heap.

Definition ref : Type := nat.
Definition heap : Type := list Position.

(** Computations that read and write the store and may raise. *)
Definition M (A : Type) : Type := heap -> result (A * heap).

Global Instance M_ret : MRet M := fun A a h => Ok (a, h).
Global Instance M_bind : MBind M := fun A B f m h =>
  match m h with
  | Ok (a, h') => f a h'
  | Raise e => Raise e
  end.

Definition lift {A : Type} (m : result A) : M A := fun h =>
  match m with
  | Ok a => Ok (a, h)
  | Raise e => Raise e
  end.

(** Reading the object behind a reference. *)
Definition load (r : ref) : M Position := fun h =>
  match h !! r with
  | Some p => Ok (p, h)
  | None => Raise NoSuchObject
  end.

(** [Position(lot, number)]: a fresh object. *)
Definition new (p : Position) : M ref := fun h => Ok (List.length h, h ++ [p]).

(** Assignment to the attributes of an existing object. *)
Definition store (r : ref) (p : Position) : M unit := fun h =>
  Ok (tt, <[r := p]> h).

Definition __copy__ (self : ref) : M ref :=
  p ← load self; new (position.__copy__ p).

Definition get_units (self : ref) : M Amount :=
  p ← load self; mret (position.get_units p).

Definition get_cost (self : ref) : M Amount :=
  p ← load self; mret (position.get_cost p).

Definition get_weight (self : ref) (price : option Amount) : M Amount :=
  p ← load self; lift (position.get_weight p price).

(** [Position.cost]: [return self] hands back the reference itself. *)
Definition cost (self : ref) : M ref :=
  p ← load self;
  match cost (lot p) with
  | None => mret self
  | Some _ => new (position.cost p)
  end.

(** [self.number += number] *)
Definition add (self : ref) (n : Decimal) : M unit :=
  p ← load self; store self (position.add p n).

Definition get_negative (self : ref) : M ref :=
  p ← load self; new (position.get_negative p).

(** The operations on a position, for statements about all of them. *)
Inductive operation : Type :=
| Negate
| CostProjection
| Copy
| Units
| CostAmount
| Weight (price : option Amount)
| AddUnits (n : Decimal).

Definition perform (op : operation) (self : ref) : M unit :=
  match op with
  | Negate => _ ← get_negative self; mret tt
  | CostProjection => _ ← cost self; mret tt
  | Copy => _ ← __copy__ self; mret tt
  | Units => _ ← get_units self; mret tt
  | CostAmount => _ ← get_cost self; mret tt
  | Weight price => _ ← get_weight self price; mret tt
  | AddUnits n => add self n
  end.

End Heap.

(** ** position.py: [Position.from_string] *)

Section Parser.

Import Regex.

(** The token patterns and the reader of numbers, from
    [beancount.core.number] and [beancount.core.amount].  The patterns hold
    no capturing group of their own.  [D] returns the number that a text
    spells, or raises. *)
Variable NUMBER_RE : regex.
Variable CURRENCY_RE : regex.
Variable D : string -> result Decimal.

Definition ws : regex := Class is_space.
Definition digit : regex := Class is_digit.

(** The patterns are written out token by token, as in a verbose pattern.
    Overall: [\s* ( NUMBER_RE ) \s+ ( CURRENCY_RE ) (?: \s+ { ( [^}]* ) } )? \s* $] *)
Definition POSITION_RE : regex :=
  seq [Star ws; Group 1 NUMBER_RE; Plus ws; Group 2 CURRENCY_RE;
       Opt (seq [Plus ws; Chr "{"; Group 3 (Star (Class (none_of "}"))); Chr "}"]);
       Star ws; Eos].

(** A compound number with its currency:
    [( NUMBER_RE ) \s* (?: # \s* ( NUMBER_RE ) )? \s+ ( CURRENCY_RE ) $] *)
Definition COMPOUND_RE : regex :=
  seq [Group 1 NUMBER_RE; Star ws;
       Opt (seq [Chr "#"; Star ws; Group 2 NUMBER_RE]);
       Plus ws; Group 3 CURRENCY_RE; Eos].

(** A date: [( \d\d\d\d ) [-/] ( \d\d ) [-/] ( \d\d ) $] *)
Definition DATE_RE : regex :=
  seq [Group 1 (seq [digit; digit; digit; digit]); Class (one_of "-/");
       Group 2 (seq [digit; digit]); Class (one_of "-/");
       Group 3 (seq [digit; digit]); Eos].

(** A label: a double quote, [( [^q]+ )*] where q is the double quote, a
    double quote and [$].  The double quote is character 34. *)
Definition dquote : ascii := "034".

Definition LABEL_RE : regex :=
  seq [Chr dquote; Star (Group 1 (Plus (Class (fun a => negb (Ascii.eqb a dquote)))));
       Chr dquote; Eos].

(** A merge-cost marker: a star and [$]. *)
Definition MERGE_RE : regex := seq [Chr "*"; Eos].

(** A group that took no part in the match is None; None and the empty
    string are both false. *)
Definition group_str (i : nat) (m : groups) : string := default EmptyString (group i m).

(** [D(x) if x else ZERO] *)
Definition D_or_zero (x : string) : result Decimal :=
  if String.eqb x EmptyString then Ok ZERO else D x.

(** [int(x)] on a string of digits. *)
Definition int (x : string) : Z :=
  fold_left (fun n a => 10 * n + (Z.of_N (code a) - 48)) (list_ascii_of_string x) 0.

(** The per-unit cost of a cost spec:
    [if total_number: total = number * per_number + total_number;
                      per_number = total / number]. *)
Definition per_unit_cost (number per_number total_number : Decimal) : result Decimal :=
  if number.truthy total_number then
    let total := number.add (number.mul number per_number) total_number in
    number.div total number
  else Ok per_number.

(** The body of the loop over the components of the cost block; the state
    is [(cost, lot_date)]. *)
Definition cost_component (number : Decimal)
    (state : option Amount * option date) (expr : string)
    : result (option Amount * option date) :=
  match re_match COMPOUND_RE expr with
  | Some m =>
      per_number ← D_or_zero (group_str 1 m);
      total_number ← D_or_zero (group_str 2 m);
      let cost_currency := group_str 3 m in
      per_number ← per_unit_cost number per_number total_number;
      mret (Some (mkAmount per_number cost_currency), snd state)
  | None =>
  match re_match DATE_RE expr with
  | Some m =>
      d ← datetime.date_new (int (group_str 1 m)) (int (group_str 2 m))
                            (int (group_str 3 m));
      mret (fst state, Some d)
  | None =>
  match re_match LABEL_RE expr with
  | Some _ => mret state
  | None =>
  match re_match MERGE_RE expr with
  | Some _ => mret state
  | None => Raise (ValueError ("Invalid cost component: '" +:+ expr +:+ "'"))
  end end end end.

(** [for expr in expressions: ...] *)
Fixpoint cost_components (number : Decimal) (expressions : list string)
    (state : option Amount * option date)
    : result (option Amount * option date) :=
  match expressions with
  | [] => Ok state
  | expr :: rest =>
      state' ← cost_component number state expr;
      cost_components number rest state'
  end.

(** [[expr.strip() for expr in re.split('[,/]', cost_expression)]] *)
Definition expressions_of (cost_expression : string) : list string :=
  strip <$> split_on (one_of ",/") cost_expression.

(** [Position.from_string(string)]; the [D(number)] of its last line is
    handed a number, which it returns. *)
Definition from_string (string : string) : result Position :=
  match re_match POSITION_RE string with
  | None => Raise (ValueError ("Invalid string for position: '" +:+ string +:+ "'"))
  | Some m =>
      number ← D (group_str 1 m);
      let currency := group_str 2 m in
      let cost_expression := group_str 3 m in
      state ← (if String.eqb cost_expression EmptyString then Ok (None, None)
               else cost_components number (expressions_of cost_expression)
                                    (None, None));
      mret (mkPosition (mkLot currency (fst state) (snd state)) number)
  end.

(** The components of the cost block of a string, as the loop of
    [from_string] sees them: none when the string does not match or the
    block is missing or empty. *)
Definition components_of (text : string) : list string :=
  match re_match POSITION_RE text with
  | Some m =>
      if String.eqb (group_str 3 m) EmptyString then []
      else expressions_of (group_str 3 m)
  | None => []
  end.

(** A component that matches none of the four recognized forms. *)
Definition unrecognized (expr : string) : Prop :=
  re_match COMPOUND_RE expr = None /\ re_match DATE_RE expr = None /\
  re_match LABEL_RE expr = None /\ re_match MERGE_RE expr = None.

(** A component that is read as a date token but names no calendar date. *)
Definition invalid_date (expr : string) : Prop :=
  re_match COMPOUND_RE expr = None /\
  exists m, re_match DATE_RE expr = Some m /\
            is_ok (datetime.date_new (int (group_str 1 m)) (int (group_str 2 m))
                                     (int (group_str 3 m))) = false.

(** A component whose numbers, when it is a cost spec, [D] can read. *)
Definition readable_numbers (expr : string) : Prop :=
  forall m, re_match COMPOUND_RE expr = Some m ->
            is_ok (D_or_zero (group_str 1 m)) = true /\
            is_ok (D_or_zero (group_str 2 m)) = true.

(** The statement that a format error is raised exactly when the string
    does not match the overall pattern or some component is unrecognized. *)
Definition format_error_iff_unrecognized (text : string) : Prop :=
  raises_ValueError (from_string text) <->
  (re_match POSITION_RE text = None \/
   exists expr, In expr (components_of text) /\ unrecognized expr).

End Parser.

(** The parser with the token patterns of [number] and [amount]. *)
Definition from_string_std : string -> result Position :=
  from_string number.NUMBER_RE amount.CURRENCY_RE number.D.

(** ** Inventories *)

Module inventory.

(** Modelled from the spec: [beancount/core/inventory.py] is not part of the
    sources at hand.  An Inventory holds positions, at most one per distinct
    lot; they are kept in the order in which their lots were first added,
    and positions whose number has become zero stay until someone looks
    (they count as absent). *)
Definition Inventory : Type := list Position.

(** Modelled from the spec: the design document takes the numbers of this
    layer to be exact (sections 2 and 7: exact decimal arithmetic, no
    rounding anywhere).  Inventories and the summarization engine are
    therefore built on the operations of section 4.1 read over exact
    numbers: incrementing the number of a position, [at_cost()] and
    [negate()].  Each agrees with the method of [Position] of the same
    purpose whenever that method has nothing to round. *)
Definition increment (p : Position) (n : Decimal) : Position :=
  mkPosition (lot p) (number p + n)%Qc.

Definition at_cost (p : Position) : Position :=
  match cost (lot p) with
  | None => p
  | Some c => mkPosition (mkLot (amount_currency c) None None)
                         (number p * amount_number c)%Qc
  end.

Definition negate (p : Position) : Position :=
  mkPosition (lot p) (- number p)%Qc.

(** Modelled from the spec: [add(lot, number)] increments the position with
    an identical lot if there is one, else inserts a new position; negative
    results are legal. *)
Fixpoint add (inv : Inventory) (l : Lot) (n : Decimal) : Inventory :=
  match inv with
  | [] => [mkPosition l n]
  | p :: rest =>
      if Lot_eqb (lot p) l then increment p n :: rest
      else p :: add rest l n
  end.

(** Booking a position. *)
Definition add_position (inv : Inventory) (p : Position) : Inventory :=
  add inv (lot p) (number p).

Definition get_positions (inv : Inventory) : list Position := inv.

(** Modelled from the spec: [is_empty()] is true iff every position has
    number zero. *)
Definition is_empty (inv : Inventory) : bool :=
  forallb (fun p => number.eqb (number p) ZERO) inv.

(** Modelled from the spec: [get_cost()] returns a new inventory where every
    position went through [at_cost()] and costless positions of like
    currency are merged. *)
Definition get_cost (inv : Inventory) : Inventory :=
  fold_left (fun acc p => add_position acc (at_cost p)) inv [].

(** The inventory with every position negated. *)
Definition neg (inv : Inventory) : Inventory := negate <$> inv.

(** Modelled from the spec: two inventories are equal iff, zero positions
    dropped, their lot to number mappings are identical. *)
Definition units_of (inv : Inventory) (l : Lot) : Decimal :=
  match List.find (fun p => Lot_eqb (lot p) l) inv with
  | Some p => number p
  | None => ZERO
  end.

Definition covers (a b : Inventory) : bool :=
  forallb (fun p => number.eqb (number p) (units_of b (lot p))) a.

Definition eqb (a b : Inventory) : bool := covers a b && covers b a.

(** The number of units that a position, and a list of positions, holds in
    the lot [l] once valued at cost. *)
Definition cost_in (l : Lot) (p : Position) : Decimal :=
  let q := at_cost p in
  if Lot_eqb (lot q) l then number q else ZERO.

Definition total_cost_in (l : Lot) (ps : list Position) : Decimal :=
  fold_right (fun p acc => (cost_in l p + acc)%Qc) ZERO ps.

(** Inventories of costless lots, one position per lot: the shape of what
    [get_cost] returns. *)
Definition at_cost_shape (inv : Inventory) : Prop :=
  Forall (fun p => cost (lot p) = None) inv /\ NoDup (lot <$> inv).

End inventory.

Abbreviation Inventory := inventory.Inventory.

(** ** Directives *)

Module data.

(** Modelled from the spec: the directive records come from the parser
    layer, which is not part of the sources at hand.  A posting names an
    account, carries a position and optionally an explicit price. *)
Record Posting : Type := mkPosting {
  account : string;
  position : Position;
  price : option Amount
}.

(** The narration of a transaction: a text, or the text
    [Conversion for <inventory>], kept unrendered because rendering an
    inventory belongs to the display layer. *)
Inductive Narration : Type :=
| Text (s : string)
| ConversionFor (imbalance : Inventory).

(** The entries of a directive stream. *)
Inductive Directive : Type :=
| Open (d : date) (acc : string)
| Close (d : date) (acc : string)
| Transaction (d : date) (flag : ascii) (narration : Narration)
              (postings : list Posting)
| Price (d : date) (cur : string) (amt : Amount)
| Balance (d : date) (acc : string) (amt : Amount)
| Pad (d : date) (acc source_account : string).

(** [entry.date] *)
Definition date_of (entry : Directive) : date :=
  match entry with
  | Open d _ | Close d _ | Transaction d _ _ _
  | Price d _ _ | Balance d _ _ | Pad d _ _ => d
  end.

(** The postings of an entry; only transactions have some. *)
Definition postings_of (entry : Directive) : list Posting :=
  match entry with
  | Transaction _ _ _ ps => ps
  | _ => []
  end.

End data.

(** The reserved flags of synthesized transactions. *)
Module flags.
Definition FLAG_SUMMARIZE : ascii := "S".
Definition FLAG_TRANSFER : ascii := "T".
Definition FLAG_CONVERSIONS : ascii := "C".
End flags.

(** ** The summarization engine *)

Module summarize.

Import data.

(** Modelled from the spec: [beancount/ops/summarize.py] is not part of the
    sources at hand; its tests are.  The functions below follow section 4
    of the design document. *)

(** The account-type configuration: category name to account-name prefix. *)
Record AccountTypes : Type := mkAccountTypes {
  assets : string;
  liabilities : string;
  equity : string;
  income : string;
  expenses : string
}.

(** The first component of an account name, up to the first colon. *)
Fixpoint account_type (acc : string) : string :=
  match acc with
  | EmptyString => EmptyString
  | String a rest => if Ascii.eqb a ":" then EmptyString else String a (account_type rest)
  end.

Definition is_income_statement_account (acc : string) (types : AccountTypes) : bool :=
  String.eqb (account_type acc) (income types) ||
  String.eqb (account_type acc) (expenses types).

(** The entries before the first one dated at or after [cutoff]; all of
    them when no cutoff is given. *)
Fixpoint before (entries : list Directive) (cutoff : option date) : list Directive :=
  match entries with
  | [] => []
  | entry :: rest =>
      match cutoff with
      | Some d => if datetime.ltb (date_of entry) d then entry :: before rest cutoff else []
      | None => entry :: before rest cutoff
      end
  end.

(** Booking every posting of an entry into the balance of its account. *)
Definition book_posting (balances : gmap string Inventory) (p : Posting)
    : gmap string Inventory :=
  <[account p := inventory.add_position (default [] (balances !! account p)) (position p)]>
    balances.

Definition book_entry (balances : gmap string Inventory) (entry : Directive)
    : gmap string Inventory :=
  fold_left book_posting (postings_of entry) balances.

(** Section 4.3: [balance_by_account(directives, cutoff_date?)] returns the
    balances of the accounts and the index of the first directive dated at
    or after the cutoff (the length of the stream if there is none). *)
Definition balance_by_account (entries : list Directive) (cutoff : option date)
    : gmap string Inventory * nat :=
  let head := before entries cutoff in
  (fold_left book_entry head ∅, List.length head).

(** [sorted(balances.items())] *)
Definition item_le (a b : string * Inventory) : Prop :=
  Is_true (String.leb (fst a) (fst b)).

Definition sorted_items (balances : gmap string Inventory)
    : list (string * Inventory) :=
  merge_sort item_le (map_to_list balances).

(** Replacing every occurrence of a placeholder in a template. *)
Fixpoint replace_from (pat rep : string) (skip : nat) (s : string) : string :=
  match s with
  | EmptyString => EmptyString
  | String a rest =>
      match skip with
      | S k => replace_from pat rep k rest
      | O =>
          if String.prefix pat s
          then rep +:+ replace_from pat rep (String.length pat - 1) rest
          else String a (replace_from pat rep O rest)
      end
  end.

Definition replace (pat rep s : string) : string := replace_from pat rep O s.

(** [str(date)]: YYYY-MM-DD. *)
Definition padded (width : nat) (n : Z) : string :=
  let s := pretty n in
  String.concat EmptyString (List.repeat "0" (width - String.length s)) +:+ s.

Definition date_str (d : date) : string :=
  padded 4 (datetime.year d) +:+ "-" +:+ padded 2 (datetime.month d) +:+ "-" +:+
  padded 2 (datetime.day d).

(** [narration_template.format(account=account, date=date)] *)
Definition format_narration (template acc : string) (d : date) : string :=
  replace "{date}" (date_str d) (replace "{account}" acc template).

(** One posting per position of an inventory. *)
Definition postings_for (acc : string) (inv : Inventory) : list Posting :=
  (fun p => mkPosting acc p None) <$> inventory.get_positions inv.

(** Section 4.7: one transaction per non-empty account, accounts in sorted
    order: postings for the account that reproduce its inventory (negated
    unless [forward]), and offsetting postings to [target_account] for the
    negated total at cost.  The [source] argument only fills the metadata
    of the new entries and is left out: directives carry no metadata here. *)
Definition entry_from_balance (d : date) (target_account : string)
    (forward : bool) (flag : ascii) (narration_template : string)
    (item : string * Inventory) : Directive :=
  let acc := fst item in
  let balance := if forward then snd item else inventory.neg (snd item) in
  Transaction d flag (Text (format_narration narration_template acc d))
    (postings_for acc balance ++
     postings_for target_account (inventory.neg (inventory.get_cost balance))).

Definition create_entries_from_balances (balances : gmap string Inventory)
    (d : date) (target_account : string) (forward : bool) (flag : ascii)
    (narration_template : string) : list Directive :=
  entry_from_balance d target_account forward flag narration_template <$>
    List.filter (fun item => negb (inventory.is_empty (snd item)))
                (sorted_items balances).

(** [entries[-1].date]; the callers only ask on a non-empty stream. *)
Definition last_date (entries : list Directive) : date :=
  default (datetime.mkDate 1 1 1) (date_of <$> last entries).

(** The date given to synthesized entries: the day before the cutoff, or
    the date of the last directive when no cutoff is given. *)
Definition synthetic_date (entries : list Directive) (cutoff : option date) : date :=
  match cutoff with
  | Some d => datetime.pred_day d
  | None => last_date entries
  end.

(** A balance assertion on one of the accounts of [balances]. *)
Definition asserts_balance_of (balances : gmap string Inventory)
    (entry : Directive) : bool :=
  match entry with
  | Balance _ acc _ => bool_decide (is_Some (balances !! acc))
  | _ => false
  end.

(** Section 4.6: [transfer_balances(directives, at_date?, account_predicate,
    transfer_account)].  Among the directives at or after the date, the
    balance assertions on the accounts transferred away are consumed, as
    section 8 and [TestTransferBalances] have it (the assertion of
    2011-03-15 on the checking account); every other directive stays. *)
Definition transfer_balances (entries : list Directive) (at_date : option date)
    (account_pred : string -> bool) (transfer_account : string)
    : list Directive :=
  match entries with
  | [] => entries
  | _ =>
      let '(balances, index) := balance_by_account entries at_date in
      let transfer_balances := filter (fun item => Is_true (account_pred (fst item))) balances in
      let after_entries :=
        List.filter (fun entry => negb (asserts_balance_of transfer_balances entry))
                    (drop index entries) in
      let transfer_entries :=
        create_entries_from_balances transfer_balances
          (synthetic_date entries at_date) transfer_account false
          flags.FLAG_TRANSFER "Transfer balance for '{account}' (Transfer balance)" in
      take index entries ++ transfer_entries ++ after_entries
  end.

(** Section 4.8: [summarize(directives, cutoff, opening_account)].  The
    design document has every directive before the cutoff replaced;
    [TestSummarize] shows that the open directives of the accounts still
    open and the last price of each commodity are kept as well.  They
    carry no postings and are left out here, so what follows speaks of the
    transactions of the result and of its balances only. *)
Definition summarize (entries : list Directive) (cutoff : date)
    (opening_account : string) : list Directive * nat :=
  let '(balances, index) := balance_by_account entries (Some cutoff) in
  let open_entries :=
    create_entries_from_balances balances (datetime.pred_day cutoff)
      opening_account true flags.FLAG_SUMMARIZE
      "Opening balance for '{account}' (Summarization)" in
  (open_entries ++ drop index entries, List.length open_entries).

(** Section 4.5: [truncate(directives, end_date)], the prefix of entries
    dated before [end_date]. *)
Definition truncate (entries : list Directive) (end_date : date) : list Directive :=
  before entries (Some end_date).

(** The positions of all the postings of a stream, in order. *)
Definition positions_of (entries : list Directive) : list Position :=
  position <$> concat (postings_of <$> entries).

(** The balance of a stream: the positions of all the postings of the
    transactions before the cutoff, booked into one inventory. *)
Definition compute_entries_balance (entries : list Directive) (cutoff : option date)
    : Inventory :=
  fold_left inventory.add_position (positions_of (before entries cutoff)) [].

(** A stream is ordered by date. *)
Definition date_ordered (entries : list Directive) : Prop :=
  Sorted (fun a b => Is_true (datetime.leb (date_of a) (date_of b))) entries.

(** Section 4.9: [conversions(directives, account, null_currency, cutoff?)].
    When the balance at cost is not empty, one transaction is inserted whose
    postings negate it, each priced at zero in [null_currency]. *)
Definition conversions (entries : list Directive) (conversion_account : string)
    (conversion_currency : string) (cutoff : option date) : list Directive :=
  let conversion_balance := compute_entries_balance entries cutoff in
  let conversion_cost_balance := inventory.get_cost conversion_balance in
  if inventory.is_empty conversion_cost_balance then entries
  else
    let index := List.length (before entries cutoff) in
    let conversion_entry :=
      Transaction (synthetic_date entries cutoff) flags.FLAG_CONVERSIONS
        (ConversionFor conversion_balance)
        ((fun p => mkPosting conversion_account (inventory.negate p)
                             (Some (mkAmount ZERO conversion_currency)))
           <$> inventory.get_positions conversion_cost_balance) in
    take index entries ++ conversion_entry :: drop index entries.

(** Section 4.8: [clamp]. *)
Definition clamp (entries : list Directive) (begin_date end_date : date)
    (account_types : AccountTypes) (conversion_currency : string)
    (account_earnings account_opening account_conversions : string)
    : list Directive * nat :=
  let entries :=
    transfer_balances entries (Some begin_date)
      (fun acc => is_income_statement_account acc account_types)
      account_earnings in
  let '(entries, index) := summarize entries begin_date account_opening in
  let entries := truncate entries end_date in
  let entries :=
    conversions entries account_conversions conversion_currency (Some end_date) in
  (entries, index).

End summarize.

(** ** Fixtures of summarize_test.py *)

Module fixtures.

Import data.

(** A costless position, and a transaction flagged [*]. *)
Definition units (n cur : string) : Position :=
  mkPosition (mkLot cur None None) (dec n).

Definition txn (y m d : Z) (narration : string) (postings : list Posting) : Directive :=
  Transaction (datetime.mkDate y m d) "*" (Text narration) postings.

(** The input of [TestClamp.test_clamp], the missing amounts filled in as
    the parser does. *)
Definition clamp_entries : list Directive :=
  [txn 2012 3 1 "Some income and expense to be summarized"
     [mkPosting "Income:Salary" (units "10000" "USD") None;
      mkPosting "Expenses:Taxes" (units "3600" "USD") None;
      mkPosting "Assets:US:Checking" (units "-13600" "USD") None];
   txn 2012 3 2 "Some conversion to be summarized"
     [mkPosting "Assets:US:Checking" (units "-5000" "USD")
                (Some (mkAmount (dec "1.2") "CAD"));
      mkPosting "Assets:CA:Checking" (units "6000" "CAD") None];
   txn 2012 8 1 "Some income and expense to show"
     [mkPosting "Income:Salary" (units "11000" "USD") None;
      mkPosting "Expenses:Taxes" (units "3200" "USD") None;
      mkPosting "Assets:US:Checking" (units "-14200" "USD") None];
   txn 2012 8 2 "Some other conversion to be summarized"
     [mkPosting "Assets:US:Checking" (units "-3000" "USD")
                (Some (mkAmount (dec "1.25") "CAD"));
      mkPosting "Assets:CA:Checking" (units "3750" "CAD") None];
   txn 2012 11 1 "Some income and expense to be truncated"
     [mkPosting "Income:Salary" (units "10000" "USD") None;
      mkPosting "Expenses:Taxes" (units "3600" "USD") None;
      mkPosting "Assets:US:Checking" (units "-13600" "USD") None]].

Definition account_types : summarize.AccountTypes :=
  summarize.mkAccountTypes "Assets" "Liabilities" "Equity" "Income" "Expenses".

(** The call of [test_clamp]. *)
Definition clamped : list Directive * nat :=
  summarize.clamp clamp_entries (datetime.mkDate 2012 6 1) (datetime.mkDate 2012 9 1)
    account_types "NOTHING" "Equity:Earnings" "Equity:Opening-Balances"
    "Equity:Conversions".

(** The entries of [TestTruncate]. *)
Definition one_dollar (y m d : Z) (narration : string) : Directive :=
  txn y m d narration
    [mkPosting "Assets:US:Bank:Checking" (units "1" "USD") None;
     mkPosting "Equity:Opening-Balances" (units "-1" "USD") None].

Definition truncate_entries : list Directive :=
  [one_dollar 2014 3 10 "A"; one_dollar 2014 3 11 "B"; one_dollar 2014 3 12 "C";
   one_dollar 2014 3 13 "D1"; one_dollar 2014 3 13 "D2"; one_dollar 2014 3 14 "E"].

End fixtures.

(** ** position.py: rendering, currency pairs, negative lots *)

Section Rendering.

(** What these functions take from [beancount.core.amount] and the display
    layer, neither of which is part of the sources at hand: the truth value
    of an amount and [Amount.to_string(dformat)] for the formatter in use. *)
Variable amount_bool : Amount -> bool.
Variable amount_to_string : Amount -> string.

(** The truth value of [lot.cost]: None is false, an amount is what
    [amount_bool] says. *)
Definition cost_bool (l : Lot) : bool :=
  match cost l with
  | Some c => amount_bool c
  | None => false
  end.

(** The truth value of [lot.lot_date]: a date is always true. *)
Definition lot_date_bool (l : Lot) : bool :=
  match lot_date l with
  | Some _ => true
  | None => false
  end.

(** [lot_currency_pair(lot)] *)
Definition lot_currency_pair (l : Lot) : string * option string :=
  (currency l,
   match cost l with
   | Some c => if amount_bool c then Some (amount_currency c) else None
   | None => None
   end).

(** [Position.to_string(self, dformat, detail)]; [''.join(cost_str_list)]
    is the concatenation of the pieces appended to the list. *)
Definition to_string (self : Position) (detail : bool) : string :=
  let l := lot self in
  let pos_str := amount_to_string (mkAmount (number self) (currency l)) in
  if detail then
    if cost_bool l || lot_date_bool l then
      let cost_str_list :=
        ["{"] ++
        match cost l with
        | Some c =>
            if amount_bool c
            then [amount_to_string (mkAmount (amount_number c) (amount_currency c))]
            else []
        | None => []
        end ++
        match lot_date l with
        | Some d => [", " +:+ summarize.date_str d]
        | None => []
        end ++
        ["}"] in
      pos_str +:+ " " +:+ String.concat EmptyString cost_str_list
    else pos_str
  else
    match cost l with
    | Some c => pos_str +:+ " {" +:+ amount_to_string c +:+ "}"
    | None => pos_str
    end.

(** [Position.__str__], also [__repr__]. *)
Definition __str__ (self : Position) : string := to_string self true.

(** [Position.is_negative_at_cost]: the truth value of
    [self.number < ZERO and (self.lot.cost or self.lot.lot_date)]. *)
Definition is_negative_at_cost (self : Position) : bool :=
  number.ltb (number self) ZERO &&
  (cost_bool (lot self) || lot_date_bool (lot self)).

End Rendering.

(** * Properties *)

(** ** Numbers, amounts, dates and lots *)

Lemma number_eqb_eq (a b : Decimal) : number.eqb a b = true <-> a = b.
Proof. unfold number.eqb. apply bool_decide_eq_true. Qed.

Lemma number_eqb_refl (a : Decimal) : number.eqb a a = true.
Proof. now apply number_eqb_eq. Qed.

Lemma number_eqb_neq (a b : Decimal) : number.eqb a b = false <-> a <> b.
Proof. rewrite <- number_eqb_eq. destruct (number.eqb a b); split; congruence. Qed.

Lemma number_truthy_true (a : Decimal) : number.truthy a = true <-> a <> ZERO.
Proof.
  unfold number.truthy. rewrite negb_true_iff. apply number_eqb_neq.
Qed.

(** *** The rounding of the decimal context *)

Lemma digits_upto_spec (fuel : nat) :
  forall n, 1 <= n < 10 ^ (Z.of_nat fuel + 1) ->
    1 <= number.digits_upto fuel n /\
    10 ^ (number.digits_upto fuel n - 1) <= n < 10 ^ number.digits_upto fuel n.
Proof.
  induction fuel as [|fuel IH]; intros n Hn.
  - simpl in *. change (10 ^ 1) with 10 in Hn. change (10 ^ (1 - 1)) with 1.
    change (10 ^ 1) with 10. lia.
  - cbn [number.digits_upto]. destruct (Z.ltb_spec n 10) as [Hlt|Hge].
    + change (10 ^ (1 - 1)) with 1. change (10 ^ 1) with 10. lia.
    + replace (Z.of_nat (S fuel) + 1) with (Z.succ (Z.of_nat fuel + 1)) in Hn by lia.
      rewrite Z.pow_succ_r in Hn by lia.
      assert (Hq : 1 <= n / 10 < 10 ^ (Z.of_nat fuel + 1)).
      { split; [apply Z.div_le_lower_bound; lia|apply Z.div_lt_upper_bound; lia]. }
      destruct (IH _ Hq) as (Hk & Hlo & Hhi).
      set (k := number.digits_upto fuel (n / 10)) in *.
      replace (1 + k - 1) with (Z.succ (k - 1)) by lia.
      replace (1 + k) with (Z.succ k) by lia.
      rewrite !Z.pow_succ_r by lia.
      pose proof (Z.div_mod n 10 ltac:(lia)) as Hdm.
      pose proof (Z.mod_pos_bound n 10 ltac:(lia)) as Hm.
      lia.
Qed.

Lemma ndigits_spec (n : Z) :
  1 <= n ->
  1 <= number.ndigits n /\ 10 ^ (number.ndigits n - 1) <= n < 10 ^ number.ndigits n.
Proof.
  intros Hn. unfold number.ndigits. apply digits_upto_spec. split; [exact Hn|].
  rewrite Z2Nat.id by apply Z.log2_nonneg.
  pose proof (Z.log2_spec n ltac:(lia)) as [_ Hlog].
  replace (Z.succ (Z.log2 n)) with (Z.log2 n + 1) in Hlog by lia.
  eapply Z.lt_le_trans; [exact Hlog|].
  apply Z.pow_le_mono_l. lia.
Qed.

Lemma ten_pos : (0 < number.ten)%Q.
Proof. reflexivity. Qed.

Lemma ten_nonzero : ~ (number.ten == 0)%Q.
Proof. intros H. discriminate H. Qed.

Lemma ten_gt_1 : (1 < number.ten)%Q.
Proof. reflexivity. Qed.

Lemma ten_pow_pos (e : Z) : (0 < number.ten ^ e)%Q.
Proof. apply Qpower_0_lt, ten_pos. Qed.

Lemma ten_pow_Z (k : Z) : 0 <= k -> (inject_Z (10 ^ k) == number.ten ^ k)%Q.
Proof. apply Zpower_Qpower. Qed.

Lemma ten_pow_plus (a b : Z) : (number.ten ^ (a + b) == number.ten ^ a * number.ten ^ b)%Q.
Proof. apply Qpower_plus, ten_nonzero. Qed.

Lemma ten_pow_le (a b : Z) : a <= b -> (number.ten ^ a <= number.ten ^ b)%Q.
Proof. intros H. apply Qpower_le_compat_l; [exact H|]. apply Qlt_le_weak, ten_gt_1. Qed.

(** The digits of an integer, read in the rationals. *)
Lemma ndigits_bounds (n : Z) :
  1 <= n ->
  (number.ten ^ (number.ndigits n - 1) <= inject_Z n)%Q /\
  (inject_Z n < number.ten ^ number.ndigits n)%Q.
Proof.
  intros Hn. destruct (ndigits_spec n Hn) as (Hk & Hlo & Hhi).
  rewrite <- !ten_pow_Z by lia. split.
  - now rewrite <- Zle_Qle.
  - now rewrite <- Zlt_Qlt.
Qed.

(** [adjusted x] is the exponent of the leading digit of [x]. *)
Lemma adjusted_spec (x : Q) :
  (0 < x)%Q ->
  (number.ten ^ number.adjusted x <= x)%Q /\ (x < number.ten ^ (number.adjusted x + 1))%Q.
Proof.
  intros Hx. destruct x as [n d].
  assert (Hn : 1 <= n) by (unfold Qlt in Hx; simpl in Hx; lia).
  destruct (ndigits_bounds n Hn) as [Hnlo Hnhi].
  destruct (ndigits_bounds (Zpos d) ltac:(lia)) as [Hdlo Hdhi].
  unfold number.adjusted. cbn [Qnum Qden].
  set (a := number.ndigits n) in *. set (b := number.ndigits (Zpos d)) in *.
  assert (Hd : (0 < inject_Z (Zpos d))%Q) by reflexivity.
  assert (Hnd : (inject_Z n == (n # d) * inject_Z (Zpos d))%Q).
  { unfold Qeq. simpl. rewrite ?Pos.mul_1_r. lia. }
  assert (Hup : (n # d < number.ten ^ (a - b + 1))%Q).
  { apply (Qmult_lt_r _ _ _ Hd). rewrite <- Hnd.
    eapply Qlt_le_trans; [exact Hnhi|].
    replace a with ((a - b + 1) + (b - 1)) at 1 by lia.
    rewrite ten_pow_plus. apply Qmult_le_l; [apply ten_pow_pos|exact Hdlo]. }
  assert (Hlow : (number.ten ^ (a - b - 1) <= n # d)%Q).
  { apply (Qmult_le_r _ _ _ Hd). rewrite <- Hnd.
    eapply Qle_trans; [|exact Hnlo].
    replace (a - 1) with ((a - b - 1) + b) by lia.
    rewrite ten_pow_plus. apply Qmult_le_l; [apply ten_pow_pos|].
    now apply Qlt_le_weak. }
  destruct (Qle_bool (number.ten ^ (a - b)) (n # d)) eqn:E.
  - apply Qle_bool_iff in E. split; assumption.
  - split; [exact Hlow|].
    replace (a - b - 1 + 1) with (a - b) by lia.
    apply Qnot_le_lt. intros H. apply Qle_bool_iff in H. congruence.
Qed.

(** The exponent of the leading digit is determined by the value. *)
Lemma adjusted_unique (x : Q) (e : Z) :
  (number.ten ^ e <= x)%Q -> (x < number.ten ^ (e + 1))%Q -> number.adjusted x = e.
Proof.
  intros Hlo Hhi.
  assert (Hx : (0 < x)%Q) by (eapply Qlt_le_trans; [apply ten_pow_pos|exact Hlo]).
  destruct (adjusted_spec x Hx) as [Hlo' Hhi'].
  assert (H1 : e < number.adjusted x + 1).
  { apply (Qpower_lt_compat_l_inv number.ten); [|apply ten_gt_1].
    eapply Qle_lt_trans; eassumption. }
  assert (H2 : number.adjusted x < e + 1).
  { apply (Qpower_lt_compat_l_inv number.ten); [|apply ten_gt_1].
    eapply Qle_lt_trans; eassumption. }
  lia.
Qed.

(** Rounding to the nearest integer depends on the value only, fixes the
    integers and stays within the integers around its argument. *)
Lemma half_even_comp (y y' : Q) : (y == y')%Q -> number.half_even y = number.half_even y'.
Proof.
  intros H. unfold number.half_even. rewrite (Qfloor_comp _ _ H).
  now rewrite (Qcompare_comp (y - _)%Q (y' - _)%Q
                 ltac:(now rewrite H) (1 # 2)%Q (1 # 2)%Q (Qeq_refl _)).
Qed.

Lemma half_even_Z (z : Z) : number.half_even (inject_Z z) = z.
Proof.
  unfold number.half_even. rewrite Qfloor_Z.
  replace (inject_Z z - inject_Z z ?= 1 # 2)%Q with Lt; [reflexivity|].
  symmetry. unfold Qcompare, Qminus, Qplus, Qopp, inject_Z. simpl.
  apply Z.compare_lt_iff. lia.
Qed.

Lemma half_even_floor (y : Q) :
  Qfloor y <= number.half_even y <= Qfloor y + 1.
Proof.
  unfold number.half_even.
  destruct (_ ?= _)%Q; [destruct (Z.even _)| |]; lia.
Qed.

Lemma half_even_between (y : Q) (lo hi : Z) :
  (inject_Z lo <= y)%Q -> (y < inject_Z hi)%Q -> lo <= number.half_even y <= hi.
Proof.
  intros Hlo Hhi. pose proof (half_even_floor y) as [H1 H2].
  assert (lo <= Qfloor y).
  { rewrite <- (Qfloor_Z lo). now apply Qfloor_resp_le. }
  assert (Qfloor y < hi).
  { rewrite Zlt_Qlt. eapply Qle_lt_trans; [apply Qfloor_le|exact Hhi]. }
  lia.
Qed.

(** What [quantize] keeps of a positive number: an integer of 28 digits
    (10^28 when the rounding carries) at the exponent of the last digit
    kept. *)
Lemma quantize_scaled (x : Q) :
  (0 < x)%Q ->
  (inject_Z (10 ^ 27) <= x * number.ten ^ (- (number.adjusted x - 27)))%Q /\
  (x * number.ten ^ (- (number.adjusted x - 27)) < inject_Z (10 ^ 28))%Q.
Proof.
  intros Hx. destruct (adjusted_spec x Hx) as [Hlo Hhi].
  set (e := number.adjusted x) in *.
  assert (E27 : (number.ten ^ 27 == number.ten ^ e * number.ten ^ (- (e - 27)))%Q).
  { rewrite <- ten_pow_plus. now replace (e + - (e - 27)) with 27 by lia. }
  assert (E28 : (number.ten ^ 28 == number.ten ^ (e + 1) * number.ten ^ (- (e - 27)))%Q).
  { rewrite <- ten_pow_plus. now replace (e + 1 + - (e - 27)) with 28 by lia. }
  rewrite !ten_pow_Z by lia. rewrite E27, E28. split.
  - apply Qmult_le_r; [apply ten_pow_pos|exact Hlo].
  - apply Qmult_lt_r; [apply ten_pow_pos|exact Hhi].
Qed.

Lemma quantize_digits (x : Q) :
  (0 < x)%Q ->
  10 ^ 27 <= number.half_even (x * number.ten ^ (- (number.adjusted x - 27))) <= 10 ^ 28.
Proof.
  intros Hx. destruct (quantize_scaled x Hx). now apply half_even_between.
Qed.

Lemma quantize_pos (x : Q) : (0 < x)%Q -> (0 < number.quantize x)%Q.
Proof.
  intros Hx. unfold number.quantize. change (number.PREC - 1) with 27.
  pose proof (quantize_digits x Hx) as [Hlo _].
  apply Qmult_lt_0_compat; [|apply ten_pow_pos].
  change 0%Q with (inject_Z 0). rewrite <- Zlt_Qlt.
  eapply Z.lt_le_trans; [|exact Hlo]. reflexivity.
Qed.

(** A positive number with at most 28 significant digits is left as it
    is. *)
Lemma quantize_fixed (x : Q) (m s : Z) :
  0 < m < 10 ^ 28 ->
  (x == inject_Z m * number.ten ^ s)%Q ->
  (number.quantize x == x)%Q.
Proof.
  intros Hm Hx.
  destruct (ndigits_spec m ltac:(lia)) as (Hk & Hlo & Hhi).
  destruct (ndigits_bounds m ltac:(lia)) as [Hqlo Hqhi].
  set (k := number.ndigits m) in *.
  assert (Hk28 : k <= 28).
  { destruct (Z.le_gt_cases k 28) as [H|H]; [exact H|].
    assert (10 ^ 28 <= 10 ^ (k - 1)) by (apply Z.pow_le_mono_r; lia). lia. }
  assert (Hadj : number.adjusted x = k - 1 + s).
  { apply adjusted_unique; rewrite Hx.
    - rewrite ten_pow_plus. apply Qmult_le_r; [apply ten_pow_pos|exact Hqlo].
    - replace (k - 1 + s + 1) with (k + s) by lia. rewrite ten_pow_plus.
      apply Qmult_lt_r; [apply ten_pow_pos|exact Hqhi]. }
  unfold number.quantize. change (number.PREC - 1) with 27. rewrite Hadj.
  assert (Hy : (x * number.ten ^ (- (k - 1 + s - 27))
                == inject_Z (m * 10 ^ (28 - k)))%Q).
  { rewrite Hx, inject_Z_mult, ten_pow_Z by lia.
    rewrite <- Qmult_assoc, <- ten_pow_plus.
    now replace (s + - (k - 1 + s - 27)) with (28 - k) by lia. }
  rewrite (half_even_comp _ _ Hy), half_even_Z.
  rewrite Hx, inject_Z_mult, ten_pow_Z by lia.
  rewrite <- Qmult_assoc, <- ten_pow_plus.
  now replace (28 - k + (k - 1 + s - 27)) with s by lia.
Qed.

Lemma quantize_idempotent (x : Q) :
  (0 < x)%Q -> (number.quantize (number.quantize x) == number.quantize x)%Q.
Proof.
  intros Hx. pose proof (quantize_digits x Hx) as [Hlo Hhi].
  set (M := number.half_even _) in *.
  set (s := number.adjusted x - 27).
  assert (Hq : (number.quantize x == inject_Z M * number.ten ^ s)%Q) by reflexivity.
  destruct (Z.eq_dec M (10 ^ 28)) as [E|E].
  - apply (quantize_fixed _ (10 ^ 27) (s + 1)); [split; reflexivity|].
    rewrite Hq, E, !ten_pow_Z by lia. rewrite <- !ten_pow_plus.
    now replace (27 + (s + 1)) with (28 + s) by lia.
  - apply (quantize_fixed _ M s); [|exact Hq].
    split; [|lia]. eapply Z.lt_le_trans; [|exact Hlo]. reflexivity.
Qed.

Lemma quantize_form (x : Q) :
  (0 < x)%Q ->
  exists m s, 0 < m < 10 ^ 28 /\ (number.quantize x == inject_Z m * number.ten ^ s)%Q.
Proof.
  intros Hx. pose proof (quantize_digits x Hx) as [Hlo Hhi].
  set (M := number.half_even _) in *.
  set (s := number.adjusted x - 27).
  assert (Hq : (number.quantize x == inject_Z M * number.ten ^ s)%Q) by reflexivity.
  destruct (Z.eq_dec M (10 ^ 28)) as [E|E].
  - exists (10 ^ 27), (s + 1). split; [split; reflexivity|].
    rewrite Hq, E, !ten_pow_Z by lia. rewrite <- !ten_pow_plus.
    now replace (27 + (s + 1)) with (28 + s) by lia.
  - exists M, s. split; [|exact Hq].
    split; [|lia]. eapply Z.lt_le_trans; [|exact Hlo]. reflexivity.
Qed.

(** [quantize] depends on the value of its argument only. *)
Lemma quantize_comp (x x' : Q) :
  (0 < x)%Q -> (x == x')%Q -> number.quantize x = number.quantize x'.
Proof.
  intros Hx E. destruct (adjusted_spec x Hx) as [Hlo Hhi].
  assert (Ha : number.adjusted x' = number.adjusted x)
    by (apply adjusted_unique; now rewrite <- E).
  unfold number.quantize. rewrite Ha.
  now rewrite (half_even_comp (x * _)%Q (x' * _)%Q ltac:(now rewrite E)).
Qed.


Lemma Qc_this_opp (x : Qc) : (this (- x)%Qc == - this x)%Q.
Proof. unfold Qcopp, Q2Qc. simpl. apply Qred_correct. Qed.

Lemma Qc_opp_pos (x : Qc) : (x < 0)%Qc -> (0 < - x)%Qc.
Proof.
  unfold Qclt. intros H. rewrite Qc_this_opp.
  change (this 0%Qc) with (- 0)%Q. now apply Qopp_lt_compat.
Qed.

Lemma Qc_opp_neg (x : Qc) : (0 < x)%Qc -> (- x < 0)%Qc.
Proof.
  unfold Qclt. intros H. rewrite Qc_this_opp.
  change (this 0%Qc) with (- 0)%Q. now apply Qopp_lt_compat.
Qed.

Lemma round_positive (x : number.Decimal) :
  (0 < x)%Qc -> number.round x = Q2Qc (number.quantize x).
Proof.
  intros H. assert (E : (x ?= 0)%Qc = Gt) by exact (proj1 (Qcgt_alt x 0) H).
  unfold number.round. now rewrite E.
Qed.

Lemma round_negative (x : number.Decimal) :
  (x < 0)%Qc -> number.round x = (- Q2Qc (number.quantize (- x)%Qc))%Qc.
Proof.
  intros H. assert (E : (x ?= 0)%Qc = Lt) by exact (proj1 (Qclt_alt x 0) H).
  unfold number.round. rewrite E. do 2 f_equal.
  apply quantize_comp; [|symmetry; apply Qc_this_opp].
  change 0%Q with (- 0)%Q. now apply Qopp_lt_compat.
Qed.

Lemma round_zero : number.round number.ZERO = number.ZERO.
Proof. reflexivity. Qed.

(** Rounding acts on the magnitude: it commutes with the sign. *)
Lemma round_opp (x : number.Decimal) : number.round (- x)%Qc = (- number.round x)%Qc.
Proof.
  destruct (x ?= 0)%Qc eqn:E.
  - apply Qceq_alt in E. subst x. reflexivity.
  - apply (proj2 (Qclt_alt x 0)) in E. rewrite (round_negative x E).
    rewrite (round_positive _ (Qc_opp_pos x E)). now rewrite Qcopp_involutive.
  - apply (proj2 (Qcgt_alt x 0)) in E. rewrite (round_positive x E).
    rewrite (round_negative _ (Qc_opp_neg x E)). now rewrite Qcopp_involutive.
Qed.

(** Rounding keeps the sign. *)
Lemma round_pos (x : number.Decimal) : (0 < x)%Qc -> (0 < number.round x)%Qc.
Proof.
  intros H. rewrite (round_positive x H). unfold Qclt, Q2Qc. cbn [this].
  rewrite !Qred_correct. now apply quantize_pos.
Qed.

Lemma round_neg (x : number.Decimal) : (x < 0)%Qc -> (number.round x < 0)%Qc.
Proof.
  intros H. rewrite <- (Qcopp_involutive x), round_opp.
  apply Qc_opp_neg, round_pos, Qc_opp_pos, H.
Qed.

Lemma round_eq_zero (x : number.Decimal) :
  number.round x = number.ZERO <-> x = number.ZERO.
Proof.
  split; [|intros ->; reflexivity].
  intros H. destruct (x ?= 0)%Qc eqn:E.
  - now apply Qceq_alt in E.
  - apply (proj2 (Qclt_alt x 0)), round_neg in E. rewrite H in E. discriminate E.
  - apply (proj2 (Qcgt_alt x 0)), round_pos in E. rewrite H in E. discriminate E.
Qed.

Lemma round_ltb_zero (x : number.Decimal) :
  (number.round x < 0)%Qc <-> (x < 0)%Qc.
Proof.
  split; [|apply round_neg].
  intros H. destruct (x ?= 0)%Qc eqn:E.
  - apply Qceq_alt in E. subst x. discriminate H.
  - exact (proj2 (Qclt_alt x 0) E).
  - apply (proj2 (Qcgt_alt x 0)), round_pos in E.
    exfalso. exact (Qclt_not_le _ _ H (Qclt_le_weak _ _ E)).
Qed.

(** A number with at most 28 significant digits, m x 10^s with
    |m| < 10^28, is left as it is; and every result of rounding is such a
    number. *)
Lemma round_fixed (x : number.Decimal) (m s : Z) :
  Z.abs m < 10 ^ 28 ->
  (x == inject_Z m * number.ten ^ s)%Q ->
  number.round x = x.
Proof.
  intros Hm Hx.
  assert (Hpos : forall (y : number.Decimal) k,
             0 < k < 10 ^ 28 -> (y == inject_Z k * number.ten ^ s)%Q ->
             number.round y = y).
  { intros y k Hk Hy.
    assert (H0 : (0 < y)%Qc).
    { unfold Qclt. rewrite Hy. apply Qmult_lt_0_compat; [|apply ten_pow_pos].
      change 0%Q with (inject_Z 0). rewrite <- Zlt_Qlt. lia. }
    rewrite (round_positive y H0). apply Qc_is_canon. cbn [this Q2Qc].
    rewrite Qred_correct. now apply (quantize_fixed _ k s). }
  destruct (Z.lt_trichotomy m 0) as [Hneg|[->|Hp]].
  - rewrite <- (Qcopp_involutive x), round_opp. f_equal.
    apply (Hpos _ (- m)); [lia|].
    rewrite Qc_this_opp, Hx, inject_Z_opp. ring.
  - assert (E : x = 0%Qc) by (apply Qc_is_canon; rewrite Hx; apply Qmult_0_l).
    subst x. reflexivity.
  - apply (Hpos _ m); [lia|exact Hx].
Qed.

Lemma round_form (x : number.Decimal) :
  exists m s, Z.abs m < 10 ^ 28 /\ (number.round x == inject_Z m * number.ten ^ s)%Q.
Proof.
  destruct (x ?= 0)%Qc eqn:E.
  - apply Qceq_alt in E. subst x. exists 0, 0. split; reflexivity.
  - apply (proj2 (Qclt_alt x 0)) in E. rewrite (round_negative x E).
    destruct (quantize_form (- x)%Qc) as (m & s & Hm & Hq).
    { exact (Qc_opp_pos x E). }
    exists (- m), s. split; [lia|].
    rewrite Qc_this_opp. cbn [this Q2Qc]. rewrite Qred_correct, Hq, inject_Z_opp.
    ring.
  - apply (proj2 (Qcgt_alt x 0)) in E. rewrite (round_positive x E).
    destruct (quantize_form x E) as (m & s & Hm & Hq).
    exists m, s. split; [lia|].
    cbn [this Q2Qc]. now rewrite Qred_correct.
Qed.

(** Rounding a second time changes nothing. *)
Lemma round_idempotent (x : number.Decimal) :
  number.round (number.round x) = number.round x.
Proof.
  destruct (round_form x) as (m & s & Hm & Hx). exact (round_fixed _ m s Hm Hx).
Qed.

(** The numbers that rounding leaves alone are those with at most 28
    significant digits. *)
Lemma round_fixed_iff (x : number.Decimal) :
  number.round x = x <->
  exists m s, Z.abs m < 10 ^ 28 /\ (x == inject_Z m * number.ten ^ s)%Q.
Proof.
  split.
  - intros H. rewrite <- H. apply round_form.
  - intros (m & s & Hm & Hx). exact (round_fixed x m s Hm Hx).
Qed.

(** *** Division *)

Lemma number_div_ok (a b : Decimal) :
  b <> ZERO -> number.div a b = Ok (number.round (a / b)%Qc).
Proof.
  intros Hb. unfold number.div.
  apply number_eqb_neq in Hb. now rewrite Hb.
Qed.

Lemma number_div_by_zero (a : Decimal) :
  a <> ZERO -> number.div a ZERO = Raise DivisionByZero.
Proof.
  intros Ha. unfold number.div. rewrite number_eqb_refl.
  apply number_eqb_neq in Ha. now rewrite Ha.
Qed.

Lemma amount_eqb_eq (a b : Amount) : amount.eqb a b = true <-> a = b.
Proof.
  unfold amount.eqb. rewrite andb_true_iff, number_eqb_eq, String.eqb_eq.
  destruct a, b; simpl. split.
  - intros [-> ->]. reflexivity.
  - intros [= -> ->]. split; reflexivity.
Qed.

Lemma date_eqb_eq (a b : date) : datetime.eqb a b = true <-> a = b.
Proof.
  unfold datetime.eqb. rewrite !andb_true_iff, !Z.eqb_eq.
  destruct a, b; simpl. split.
  - intros [[-> ->] ->]. reflexivity.
  - intros [= -> -> ->]. auto.
Qed.

Lemma option_eqb_eq {A : Type} (eqb : A -> A -> bool) :
  (forall x y, eqb x y = true <-> x = y) ->
  forall a b, option_eqb eqb a b = true <-> a = b.
Proof.
  intros H [x|] [y|]; simpl; try (split; congruence).
  rewrite H. split; congruence.
Qed.

Lemma Lot_eqb_eq (a b : Lot) : Lot_eqb a b = true <-> a = b.
Proof.
  unfold Lot_eqb. rewrite !andb_true_iff, String.eqb_eq.
  rewrite (option_eqb_eq _ amount_eqb_eq), (option_eqb_eq _ date_eqb_eq).
  destruct a, b; simpl. split.
  - intros [[-> ->] ->]. reflexivity.
  - intros [= -> -> ->]. auto.
Qed.

Lemma Lot_eqb_refl (a : Lot) : Lot_eqb a a = true.
Proof. now apply Lot_eqb_eq. Qed.

Lemma Lot_eqb_neq (a b : Lot) : Lot_eqb a b = false <-> a <> b.
Proof. rewrite <- Lot_eqb_eq. destruct (Lot_eqb a b); split; congruence. Qed.

(** ** The matcher *)

(** The result of a match depends on the continuation only through its
    values. *)
Lemma run_ext (r : Regex.regex) :
  forall s g k1 k2, (forall s' g', k1 s' g' = k2 s' g') ->
                    Regex.run r s g k1 = Regex.run r s g k2.
Proof.
  induction r as [|c|r1 IH1 r2 IH2|r1 IH1 r2 IH2|r IH|i r IH|];
    intros s g k1 k2 Hk; simpl.
  - apply Hk.
  - destruct s as [|a s]; [reflexivity|]. destruct (c a); [apply Hk|reflexivity].
  - apply IH1. intros s' g'. now apply IH2.
  - rewrite (IH1 s g k1 k2 Hk), (IH2 s g k1 k2 Hk). reflexivity.
  - generalize (String.length s). intros fuel. revert s g.
    induction fuel as [|fuel IHf]; intros s g; simpl; [apply Hk|].
    rewrite (IH s g _ (fun s' g' =>
                         if (String.length s' <? String.length s)%nat
                         then Regex.star_iter (Regex.run r) fuel s' g' k2
                         else None)).
    + now rewrite Hk.
    + intros s' g'. destruct (String.length s' <? String.length s)%nat;
        [apply IHf|reflexivity].
  - apply IH. intros s' g'. apply Hk.
  - destruct s as [|a [|b s]]; try reflexivity; [apply Hk|].
    destruct (Ascii.eqb a _); [apply Hk|reflexivity].
Qed.

(** A pattern followed by failure fails. *)
Lemma run_fail (r : Regex.regex) :
  forall s g, Regex.run r s g (fun _ _ => None) = None.
Proof.
  induction r as [|c|r1 IH1 r2 IH2|r1 IH1 r2 IH2|r IH|i r IH|];
    intros s g; simpl; try reflexivity.
  - destruct s as [|a s]; [reflexivity|]. now destruct (c a).
  - rewrite (run_ext r1 s g _ (fun _ _ => None)); [apply IH1|].
    intros s' g'. apply IH2.
  - now rewrite IH1, IH2.
  - generalize (String.length s). intros fuel. revert s g.
    induction fuel as [|fuel IHf]; intros s g; simpl; [reflexivity|].
    rewrite (run_ext r s g _ (fun _ _ => None)); [now rewrite IH|].
    intros s' g'. destruct (String.length s' <? String.length s)%nat;
      [apply IHf|reflexivity].
  - apply IH.
  - destruct s as [|a [|b s]]; try reflexivity. now destruct (Ascii.eqb a _).
Qed.

(** The iterations of a starred pattern never run out of fuel: any amount
    that covers the length of the text gives the same result. *)
Lemma star_iter_fuel (r : Regex.regex) (k : Regex.cont) :
  forall n m s g,
    (String.length s <= n)%nat -> (String.length s <= m)%nat ->
    Regex.star_iter (Regex.run r) n s g k = Regex.star_iter (Regex.run r) m s g k.
Proof.
  assert (Hstuck : forall fuel s g,
             String.length s = 0%nat ->
             Regex.star_iter (Regex.run r) fuel s g k = k s g).
  { intros [|fuel] s g Hs; simpl; [reflexivity|].
    rewrite (run_ext r s g _ (fun _ _ => None)); [now rewrite run_fail|].
    intros s' g'. rewrite Hs. reflexivity. }
  induction n as [|n IH]; intros m s g Hn Hm.
  - rewrite !Hstuck by lia. reflexivity.
  - destruct m as [|m]; [rewrite !Hstuck by lia; reflexivity|]. simpl.
    rewrite (run_ext r s g _ (fun s' g' =>
                                if (String.length s' <? String.length s)%nat
                                then Regex.star_iter (Regex.run r) m s' g' k
                                else None)); [reflexivity|].
    intros s' g'. destruct (Nat.ltb_spec (String.length s') (String.length s));
      [apply IH; lia|reflexivity].
Qed.

(** The starred pattern as Python runs it: one more iteration if it
    consumes something and the rest then matches, else none. *)
Lemma run_star (r : Regex.regex) (s : string) (g : Regex.groups) (k : Regex.cont) :
  Regex.run (Regex.Star r) s g k
  = match Regex.run r s g (fun s' g' =>
                             if (String.length s' <? String.length s)%nat
                             then Regex.run (Regex.Star r) s' g' k
                             else None) with
    | Some m => Some m
    | None => k s g
    end.
Proof.
  simpl. destruct s as [|a s]; simpl.
  - now rewrite run_fail.
  - rewrite (run_ext r (String a s) g _ (fun s' g' =>
               if (String.length s' <? S (String.length s))%nat
               then Regex.star_iter (Regex.run r) (String.length s') s' g' k
               else None)); [reflexivity|].
    intros s' g'. destruct (Nat.ltb_spec (String.length s') (S (String.length s)));
      [apply star_iter_fuel; lia|reflexivity].
Qed.

(** ** The weight of a position *)

(** C2. [get_weight] returns number x cost when the lot has a cost;
    otherwise, with a price, it requires the price currency to differ from
    the lot currency (an assertion error when they are equal) and returns
    number x price; otherwise it returns the units of the position. *)
Theorem get_weight_cases (p : Position) (price : option Amount) :
  (forall c, cost (lot p) = Some c ->
     position.get_weight p price = Ok (amount.amount_mult c (number p))) /\
  (forall pr, cost (lot p) = None -> price = Some pr ->
     (amount_currency pr <> currency (lot p) ->
        position.get_weight p price = Ok (amount.amount_mult pr (number p))) /\
     (amount_currency pr = currency (lot p) ->
        exists msg, position.get_weight p price = Raise (AssertionError msg))) /\
  (cost (lot p) = None -> price = None ->
     position.get_weight p price = Ok (mkAmount (number p) (currency (lot p)))).
Proof.
  unfold position.get_weight. split; [|split].
  - intros c ->. reflexivity.
  - intros pr Hc ->. rewrite Hc.
    destruct (String.eqb_spec (currency (lot p)) (amount_currency pr)) as [E|E];
      split; intros H; try congruence; eauto.
  - intros -> ->. reflexivity.
Qed.

Lemma get_weight_cases_witness :
  position.get_weight (mkPosition (mkLot "HOOL" None None) (dec "10"))
                      (Some (mkAmount (dec "500") "USD"))
  = Ok (amount.amount_mult (mkAmount (dec "500") "USD") (dec "10")).
Proof.
  apply (proj1 (proj1 (proj2 (get_weight_cases
            (mkPosition (mkLot "HOOL" None None) (dec "10"))
            (Some (mkAmount (dec "500") "USD"))))
          (mkAmount (dec "500") "USD") eq_refl eq_refl)).
  simpl. discriminate.
Defined.

(** ** Equality of positions *)

Lemma position_eq_fields (p q : Position) :
  number p = number q -> lot p = lot q -> position.__eq__ p (Some q) = true.
Proof.
  intros Hn Hl. unfold position.__eq__.
  now rewrite andb_true_iff, number_eqb_eq, Lot_eqb_eq.
Qed.

(** C6. Two positions are equal iff their numbers are equal and their lots
    are equal; a position is equal to None iff its number is zero. *)
Theorem position_eq_iff :
  (forall p q : Position,
     position.__eq__ p (Some q) = true <-> number p = number q /\ lot p = lot q) /\
  (forall p : Position,
     position.__eq__ p None = true <-> number p = ZERO).
Proof.
  split; intros p; [intros q|]; unfold position.__eq__.
  - now rewrite andb_true_iff, number_eqb_eq, Lot_eqb_eq.
  - apply number_eqb_eq.
Qed.

(** ** Negation *)

Lemma number_neg_neg (a : Decimal) :
  number.neg (number.neg a) = number.round a.
Proof.
  unfold number.neg.
  now rewrite (round_opp a), Qcopp_involutive, round_idempotent.
Qed.

Lemma number_neg_exact (a : Decimal) :
  number.round a = a -> number.neg a = (- a)%Qc.
Proof. intros H. unfold number.neg. now rewrite round_opp, H. Qed.




(** ** The sort order *)

Lemma dict_get_found {V : Type} (d : list (string * V)) (key : string) (default : V) :
  existsb (fun kv => String.eqb (fst kv) key) d = true ->
  In (dict_get d key default) (snd <$> d).
Proof.
  unfold dict_get. induction d as [|kv d IH]; [discriminate|].
  cbn [existsb List.find fmap list_fmap].
  destruct (String.eqb (fst kv) key); cbn [orb].
  - intros _. now left.
  - intros H. right. now apply IH.
Qed.

Lemma dict_get_missing {V : Type} (d : list (string * V)) (key : string) (default : V) :
  existsb (fun kv => String.eqb (fst kv) key) d = false ->
  dict_get d key default = default.
Proof.
  unfold dict_get. induction d as [|kv d IH]; [reflexivity|].
  cbn [existsb List.find].
  destruct (String.eqb (fst kv) key); cbn [orb]; [discriminate|apply IH].
Qed.

Lemma known_currency_order (c : string) (default : Z) :
  known_currency c = true -> 0 <= dict_get CURRENCY_ORDER c default < NCURRENCIES.
Proof.
  intros H. apply (dict_get_found _ _ default) in H.
  change NCURRENCIES with 8.
  cbn [CURRENCY_ORDER fmap list_fmap snd In] in H.
  intuition lia.
Qed.

Lemma unknown_currency_order (c : string) (default : Z) :
  known_currency c = false -> dict_get CURRENCY_ORDER c default = default.
Proof. apply dict_get_missing. Qed.

Section OrderingFacts.

Variable amount_bool : Amount -> bool.
Variable NULL_AMOUNT : Amount.
Variable amount_lt : Amount -> Amount -> bool.

Local Abbreviation lt := (__lt__ amount_bool NULL_AMOUNT amount_lt).

Lemma lt_by_rank (p q : Position) :
  fst (fst (sortkey amount_bool NULL_AMOUNT p)) <
  fst (fst (sortkey amount_bool NULL_AMOUNT q)) ->
  lt p q = true /\ lt q p = false.
Proof.
  unfold __lt__, tuple_lt.
  destruct (sortkey _ _ p) as [[o1 c1] n1], (sortkey _ _ q) as [[o2 c2] n2].
  simpl. intros H.
  assert (E1 : (o1 =? o2) = false) by (apply Z.eqb_neq; lia).
  assert (E2 : (o2 =? o1) = false) by (apply Z.eqb_neq; lia).
  rewrite E1, E2. simpl. split; [apply Z.ltb_lt|apply Z.ltb_ge]; lia.
Qed.


End OrderingFacts.


(** ** Positions in the store *)

Lemma heap_load (h : Heap.heap) (r : Heap.ref) (p : Position) :
  h !! r = Some p -> Heap.load r h = Ok (p, h).
Proof. unfold Heap.load. now intros ->. Qed.

(** [Position.add] assigns to the object it is called on: afterwards the
    number of that object has changed by the units added. *)
Lemma Heap_add_assigns (h : Heap.heap) (r : Heap.ref) (p : Position) (n : Decimal) :
  h !! r = Some p ->
  exists h', Heap.add r n h = Ok (tt, h') /\
             h' !! r = Some (mkPosition (lot p) (number.add (number p) n)).
Proof.
  intros Hr. exists (<[r := position.add p n]> h). split.
  - unfold Heap.add, mbind, Heap.M_bind. now rewrite (heap_load _ _ _ Hr).
  - apply list_lookup_insert_eq. now apply lookup_lt_Some in Hr.
Qed.

(** Every operation other than [add] leaves the objects that exist
    untouched: it reads, returns the reference it was given, or allocates. *)
Lemma Heap_frame (op : Heap.operation) (self r : Heap.ref) (h h' : Heap.heap) :
  (forall n, op <> Heap.AddUnits n) ->
  Heap.perform op self h = Ok (tt, h') ->
  (r < List.length h)%nat -> h' !! r = h !! r.
Proof.
  intros Hop Hrun Hr.
  unfold Heap.perform, Heap.get_negative, Heap.cost, Heap.__copy__,
    Heap.get_units, Heap.get_cost, Heap.get_weight, Heap.new, Heap.lift,
    Heap.load, mbind, mret, Heap.M_bind, Heap.M_ret in Hrun.
  destruct op; try (now exfalso; eapply Hop);
    destruct (h !! self) as [p|]; try discriminate.
  - injection Hrun as <-. now apply lookup_app_l.
  - destruct (cost (lot p)); injection Hrun as <-;
      [now apply lookup_app_l | reflexivity].
  - injection Hrun as <-. now apply lookup_app_l.
  - now injection Hrun as <-.
  - now injection Hrun as <-.
  - destruct (position.get_weight p price); [|discriminate].
    now injection Hrun as <-.
Qed.

(** C3. The claim fails on [add]: called on a position obtained from
    [cost()], which for a lot without cost is the receiver itself, it changes
    the number of the existing object from 1 to 2. *)
Theorem add_mutates_the_position :
  (q ← Heap.cost 0%nat; Heap.add q (dec "1"))
    [mkPosition (mkLot "USD" None None) (dec "1")]
  = Ok (tt, [mkPosition (mkLot "USD" None None) (dec "2")]) /\
  dec "2" <> dec "1".
Proof.
  split; [|intros H; discriminate (f_equal this H)].
  vm_compute. do 4 f_equal. apply Qc_is_canon. reflexivity.
Qed.

(** ** The parser of positions *)

(** With a total, the per-unit cost is the quotient of the total cost by
    the units, each operation rounded by the context. *)
Lemma per_unit_cost_total (number per_number total_number : Decimal) :
  number <> ZERO -> total_number <> ZERO ->
  per_unit_cost number per_number total_number
  = Ok (number.round
          (number.add (number.mul number per_number) total_number / number)%Qc).
Proof.
  intros Hn Ht. unfold per_unit_cost.
  apply number_truthy_true in Ht. rewrite Ht. now apply number_div_ok.
Qed.

Lemma per_unit_cost_nonzero (number per_number total_number : Decimal) :
  number <> ZERO ->
  per_unit_cost number per_number total_number
  = Ok (if number.truthy total_number
        then number.round
               (number.add (number.mul number per_number) total_number / number)%Qc
        else per_number).
Proof.
  intros Hn. unfold per_unit_cost.
  destruct (number.truthy total_number); [now apply number_div_ok|reflexivity].
Qed.

Lemma total_cost_zero_units (per_number total_number : Decimal) :
  number.add (number.mul ZERO per_number) total_number = number.round total_number.
Proof.
  unfold number.add, number.mul.
  replace (ZERO * per_number)%Qc with ZERO by (unfold number.ZERO; ring).
  rewrite round_zero.
  now replace (ZERO + total_number)%Qc with total_number by (unfold number.ZERO; ring).
Qed.

Lemma per_unit_cost_zero_units (per_number total_number : Decimal) :
  total_number <> ZERO ->
  per_unit_cost ZERO per_number total_number = Raise DivisionByZero.
Proof.
  intros Ht. unfold per_unit_cost.
  apply number_truthy_true in Ht as E. rewrite E, total_cost_zero_units.
  apply number_div_by_zero. now rewrite round_eq_zero.
Qed.

Lemma date_new_raises_ValueError (y m d : Z) :
  is_ok (datetime.date_new y m d) = false ->
  raises_ValueError (datetime.date_new y m d).
Proof.
  unfold datetime.date_new, raises_ValueError.
  repeat match goal with
         | |- context [if ?b then _ else _] => destruct b
         end; simpl; try discriminate; eauto.
Qed.

Section ParserFacts.

Import Regex.

Variable NUMBER_RE : regex.
Variable CURRENCY_RE : regex.
Variable D : string -> result Decimal.

Local Abbreviation COMPOUND := (COMPOUND_RE NUMBER_RE CURRENCY_RE).
Local Abbreviation component := (cost_component NUMBER_RE CURRENCY_RE D).
Local Abbreviation components := (cost_components NUMBER_RE CURRENCY_RE D).
Local Abbreviation readable := (readable_numbers NUMBER_RE CURRENCY_RE D).

Lemma cost_components_app (number : Decimal) (a b : list string)
    (state : option Amount * option date) :
  components number (a ++ b) state
  = state' ← components number a state; components number b state'.
Proof.
  revert state. induction a as [|e a IH]; intros state; [reflexivity|].
  simpl. destruct (component number state e); simpl; [apply IH|reflexivity].
Qed.

(** What one component does when the unit number is not zero: a cost spec
    whose numbers are read sets the cost, anything else that is accepted
    leaves it alone. *)
Lemma cost_component_compound (number per_number total_number : Decimal)
    (state : option Amount * option date) (expr : string) (m : groups) :
  number <> ZERO ->
  re_match COMPOUND expr = Some m ->
  D_or_zero D (group_str 1 m) = Ok per_number ->
  D_or_zero D (group_str 2 m) = Ok total_number ->
  component number state expr
  = Ok (Some (mkAmount
                (if number.truthy total_number
                 then number.round
                        (number.add (number.mul number per_number) total_number
                         / number)%Qc
                 else per_number)
                (group_str 3 m)),
        snd state).
Proof.
  intros Hn Hm Hper Htotal. unfold cost_component. rewrite Hm, Hper, Htotal.
  cbn [mbind result_bind]. now rewrite per_unit_cost_nonzero.
Qed.

Lemma cost_component_other (number : Decimal)
    (state state' : option Amount * option date) (expr : string) :
  re_match COMPOUND expr = None ->
  component number state expr = Ok state' ->
  fst state' = fst state.
Proof.
  intros Hm. unfold cost_component. rewrite Hm.
  destruct (re_match DATE_RE expr).
  { destruct (datetime.date_new _ _ _); [|discriminate].
    now intros [= <-]. }
  destruct (re_match LABEL_RE expr); [now intros [= <-]|].
  destruct (re_match MERGE_RE expr); [now intros [= <-]|discriminate].
Qed.

(** Whether a component is accepted does not depend on the state. *)
Lemma cost_component_ok_any_state (number : Decimal)
    (state state' : option Amount * option date) (expr : string) :
  is_ok (component number state expr) = is_ok (component number state' expr).
Proof.
  unfold cost_component.
  destruct (re_match COMPOUND expr) as [m|].
  { destruct (D_or_zero D (group_str 1 m)); [|reflexivity].
    destruct (D_or_zero D (group_str 2 m)); [|reflexivity].
    cbn [mbind result_bind]. now destruct (per_unit_cost _ _ _). }
  destruct (re_match DATE_RE expr).
  { now destruct (datetime.date_new _ _ _). }
  now destruct (re_match LABEL_RE expr), (re_match MERGE_RE expr).
Qed.

Lemma cost_components_keep_cost (number : Decimal) (post : list string) :
  Forall (fun e => re_match COMPOUND e = None /\
                   is_ok (component number (None, None) e) = true) post ->
  forall state, exists state',
    components number post state = Ok state' /\ fst state' = fst state.
Proof.
  induction 1 as [|e post [Hm Hok] _ IH]; intros state; [now exists state|].
  cbn [cost_components]. rewrite (cost_component_ok_any_state _ _ state) in Hok.
  destruct (component number state e) as [state1|] eqn:E; [|discriminate].
  cbn [mbind result_bind].
  destruct (IH state1) as (state' & -> & Hfst). exists state'. split; [reflexivity|].
  rewrite Hfst. now apply (cost_component_other _ _ _ _ Hm E).
Qed.


Local Abbreviation rejected := (fun expr =>
  unrecognized NUMBER_RE CURRENCY_RE expr \/ invalid_date NUMBER_RE CURRENCY_RE expr).

(** With a unit number that is not zero, a component whose numbers are
    read is either accepted or raises a [ValueError], the latter exactly
    when it is unrecognized or an invalid date. *)
Lemma cost_component_cases (number : Decimal)
    (state : option Amount * option date) (expr : string) :
  number <> ZERO ->
  readable expr ->
  (is_ok (component number state expr) = true /\ ~ rejected expr) \/
  (raises_ValueError (component number state expr) /\ rejected expr).
Proof.
  intros Hn Hread. unfold unrecognized, invalid_date.
  destruct (re_match COMPOUND expr) as [m|] eqn:Ec.
  { left. destruct (Hread m Ec) as [Hper Htotal].
    destruct (D_or_zero D (group_str 1 m)) as [per_number|] eqn:Eper; [|discriminate].
    destruct (D_or_zero D (group_str 2 m)) as [total_number|] eqn:Etotal;
      [|discriminate].
    rewrite (cost_component_compound _ _ _ _ _ _ Hn Ec Eper Etotal).
    split; [reflexivity|]. intros [[? _]|[? _]]; discriminate. }
  unfold cost_component. rewrite Ec.
  destruct (re_match DATE_RE expr) as [m|] eqn:Ed.
  { destruct (datetime.date_new _ _ _) as [d|e] eqn:En.
    - left. split; [reflexivity|].
      intros [(_ & ? & _)|(_ & m' & [= <-] & Hbad)]; [discriminate|].
      rewrite En in Hbad. discriminate.
    - right. split.
      + destruct (date_new_raises_ValueError _ _ _ (f_equal is_ok En)) as [msg Hmsg].
        exists msg. rewrite En in Hmsg. now rewrite Hmsg.
      + right. split; [reflexivity|]. exists m. split; [reflexivity|].
        now rewrite En. }
  destruct (re_match LABEL_RE expr) eqn:El.
  { left. split; [reflexivity|].
    intros [(_ & _ & ? & _)|(_ & ? & ? & _)]; discriminate. }
  destruct (re_match MERGE_RE expr) eqn:Em.
  { left. split; [reflexivity|].
    intros [(_ & _ & _ & ?)|(_ & ? & ? & _)]; discriminate. }
  right. split; [eexists; reflexivity|]. left. auto.
Qed.

Lemma cost_components_cases (number : Decimal) (exprs : list string) :
  number <> ZERO ->
  (forall expr, In expr exprs -> readable expr) ->
  forall state,
    (is_ok (components number exprs state) = true /\
     ~ exists expr, In expr exprs /\ rejected expr) \/
    (raises_ValueError (components number exprs state) /\
     exists expr, In expr exprs /\ rejected expr).
Proof.
  intros Hn. induction exprs as [|e rest IH]; intros Hread state.
  { left. split; [reflexivity|]. now intros (? & [] & _). }
  cbn [cost_components].
  destruct (cost_component_cases number state e Hn (Hread e (or_introl eq_refl)))
    as [[Hok Hacc]|[Hraise Hrej]].
  - destruct (component number state e) as [state1|]; [|discriminate].
    cbn [mbind result_bind].
    destruct (IH (fun x Hx => Hread x (or_intror Hx)) state1)
      as [[Hok' Hnone]|[Hraise' (x & Hin & Hx)]].
    + left. split; [exact Hok'|]. intros (x & [<-|Hin] & Hx); [tauto|].
      apply Hnone. eauto.
    + right. split; [exact Hraise'|]. exists x. split; [now right|exact Hx].
  - right. split.
    + destruct Hraise as [msg ->]. now exists msg.
    + exists e. split; [now left|exact Hrej].
Qed.

Lemma raises_ValueError_not_ok {A : Type} (r : result A) :
  raises_ValueError r -> is_ok r = true -> False.
Proof. intros [msg ->]. discriminate. Qed.


End ParserFacts.

(** *** The parser on the token patterns of [number] and [amount] *)

Lemma number_dec_nonzero (s : string) :
  Qeq_bool (this (dec s)) 0 = false -> dec s <> ZERO.
Proof. intros H E. rewrite E in H. discriminate. Qed.

(** A literal that [D] reads is what [dec] stands for. *)
Lemma number_D_dec (s : string) : is_ok (number.D s) = true -> number.D s = Ok (dec s).
Proof. unfold number.dec. now destruct (number.D s). Qed.

(** The only exception of the reader of numbers. *)
Lemma number_D_raises (s : string) (e : exn) :
  number.D s = Raise e -> e = InvalidOperation.
Proof.
  unfold number.D, number.Decimal_of_string.
  destruct (String.eqb s EmptyString); [discriminate|].
  destruct (number.read_sign _) as [negative s1].
  destruct (number.span _ s1) as [int_part s2].
  destruct (match s2 with [] => _ | _ :: _ => _ end) as [frac_part s3].
  destruct (int_part ++ frac_part); [now intros [= <-]|].
  destruct (number.read_exponent s3); [discriminate|now intros [= <-]].
Qed.

Lemma number_D_no_ValueError (s msg : string) :
  number.D s = Raise (ValueError msg) -> String.prefix "Invalid s" msg = false.
Proof. intros H. apply number_D_raises in H. discriminate. Qed.


(** The parser on a few strings: positions, format errors, a number that
    [Decimal] cannot read, and a per-unit cost that the division rounds. *)
Example from_string_examples :
  from_string_std "10 HOOL {500.00 USD}"
    = Ok (mkPosition (mkLot "HOOL" (Some (mkAmount (dec "500.00") "USD")) None)
                     (dec "10")) /\
  from_string_std " -1,000.50 USD "
    = Ok (mkPosition (mkLot "USD" None None) (dec "-1,000.50")) /\
  from_string_std "10 HOOL {500.00 USD, 2014-06-15}"
    = Ok (mkPosition (mkLot "HOOL" (Some (mkAmount (dec "500.00") "USD"))
                            (Some (datetime.mkDate 2014 6 15)))
                     (dec "10")) /\
  from_string_std "10 HOOL {}" = Ok (mkPosition (mkLot "HOOL" None None) (dec "10")) /\
  from_string_std "10 hool"
    = Raise (ValueError "Invalid string for position: '10 hool'") /\
  from_string_std "10 HOOL {500.00 USD, 2014/06/15}"
    = Raise (ValueError "Invalid cost component: '2014'") /\
  from_string_std "- USD" = Raise InvalidOperation /\
  from_string_std "10 HOOL {- USD}" = Raise InvalidOperation /\
  from_string_std "10 HOOL {5 # . USD}" = Raise InvalidOperation /\
  this (dec "-1,000.50") = (-2001 # 2)%Q /\
  this (number.round (Q2Qc (115 # 3))) = (3833333333333333333333333333 # 10 ^ 26)%Q.
Proof. repeat split; vm_compute; reflexivity. Qed.




(** C10. A well-formed string with zero units and a total cost makes
    [from_string] divide by the unit number: it raises a division error, not
    a format error, and returns no position.  The per-unit computation
    succeeds whenever the unit number is not zero. *)
Theorem zero_units_total_cost_division_error :
  Regex.re_match (POSITION_RE number.NUMBER_RE amount.CURRENCY_RE)
                 "0 HOOL {# 100.00 USD}"
    = Some [(3%nat, "# 100.00 USD"); (2%nat, "HOOL"); (1%nat, "0")] /\
  Regex.re_match (COMPOUND_RE number.NUMBER_RE amount.CURRENCY_RE) "# 100.00 USD"
    = Some [(3%nat, "USD"); (2%nat, "100.00"); (1%nat, EmptyString)] /\
  from_string_std "0 HOOL {# 100.00 USD}" = Raise DivisionByZero /\
  (forall number per_number total_number : Decimal,
     total_number <> ZERO ->
     (number = ZERO ->
      per_unit_cost number per_number total_number = Raise DivisionByZero) /\
     (number <> ZERO ->
      per_unit_cost number per_number total_number
      = Ok (number.round
              (number.add (number.mul number per_number) total_number / number)%Qc))).
Proof.
  split; [vm_compute; reflexivity|].
  split; [vm_compute; reflexivity|].
  split; [vm_compute; reflexivity|].
  intros number per_number total_number Ht. split.
  - intros ->. now apply per_unit_cost_zero_units.
  - intros Hn. now apply per_unit_cost_total.
Qed.

Lemma zero_units_total_cost_division_error_witness :
  per_unit_cost (dec "0") (dec "5") (dec "100.00")
  = Raise DivisionByZero.
Proof.
  apply (proj1 (proj2 (proj2 (proj2 zero_units_total_cost_division_error))
                  (dec "0") (dec "5") (dec "100.00")
                  (number_dec_nonzero "100.00" eq_refl))).
  apply Qc_is_canon. reflexivity.
Defined.

(** ** Truncation *)

Import data summarize.

Lemma date_before_cutoff_mono (a b d : date) :
  datetime.leb a b = true -> datetime.ltb b d = true -> datetime.ltb a d = true.
Proof.
  unfold datetime.leb, datetime.ltb.
  repeat match goal with
         | |- context [?x =? ?y] => destruct (Z.eqb_spec x y)
         end; simpl;
    rewrite ?negb_true_iff, ?Z.ltb_lt, ?Z.ltb_ge; lia.
Qed.

Lemma before_all_before (entries : list Directive) (d : date) :
  Forall (fun e => datetime.ltb (date_of e) d = true) (before entries (Some d)).
Proof.
  induction entries as [|e rest IH]; simpl; [constructor|].
  destruct (datetime.ltb (date_of e) d) eqn:E; constructor; assumption.
Qed.

Lemma before_fixed (entries : list Directive) (d : date) :
  Forall (fun e => datetime.ltb (date_of e) d = true) entries ->
  before entries (Some d) = entries.
Proof.
  induction 1 as [|e rest He _ IH]; simpl; [reflexivity|].
  now rewrite He, IH.
Qed.

Lemma before_no_cutoff (entries : list Directive) : before entries None = entries.
Proof. induction entries as [|e rest IH]; simpl; [reflexivity|now rewrite IH]. Qed.

Lemma before_is_prefix (entries : list Directive) (cutoff : option date) :
  take (List.length (before entries cutoff)) entries = before entries cutoff.
Proof.
  induction entries as [|e rest IH]; simpl; [reflexivity|].
  destruct cutoff as [d|]; [destruct (datetime.ltb (date_of e) d)|];
    simpl; now rewrite ?IH.
Qed.

(** In an ordered stream nothing after an entry dated at or after the
    cutoff is dated before it. *)
Lemma ordered_tail_not_before (rest : list Directive) (d : date) :
  date_ordered rest ->
  forall e, HdRel (fun a b => Is_true (datetime.leb (date_of a) (date_of b))) e rest ->
            datetime.ltb (date_of e) d = false ->
            List.filter (fun x => datetime.ltb (date_of x) d) rest = [].
Proof.
  induction 1 as [|e' rest' Hsorted IH Hhd]; intros e He Hd; [reflexivity|].
  apply HdRel_inv in He. simpl.
  destruct (datetime.ltb (date_of e') d) eqn:E.
  - apply Is_true_true in He.
    rewrite (date_before_cutoff_mono _ _ _ He E) in Hd. discriminate.
  - now apply (IH e').
Qed.

(** C9. [truncate] returns a prefix of the stream, all of whose entries are
    dated before the end date; on a stream ordered by date, as directive
    streams are, this prefix holds exactly the entries dated before the end
    date, in their order and whatever their kind; and truncating twice is
    the same as truncating once. *)
Theorem truncate_prefix_filter_idempotent (xs : list Directive) (d : date) :
  truncate xs d = take (List.length (truncate xs d)) xs /\
  Forall (fun e => datetime.ltb (date_of e) d = true) (truncate xs d) /\
  truncate (truncate xs d) d = truncate xs d /\
  (date_ordered xs ->
   truncate xs d = List.filter (fun e => datetime.ltb (date_of e) d) xs).
Proof.
  unfold truncate. repeat split.
  - symmetry. apply before_is_prefix.
  - apply before_all_before.
  - apply before_fixed, before_all_before.
  - intros Hsorted.
    induction Hsorted as [|e rest Hs IH Hhd]; simpl; [reflexivity|].
    destruct (datetime.ltb (date_of e) d) eqn:E.
    + now rewrite IH.
    + symmetry. now apply (ordered_tail_not_before rest d Hs e).
Qed.

(** ** Inventories at cost *)

Lemma position_cost_idempotent (p : Position) :
  position.cost (position.cost p) = position.cost p.
Proof.
  unfold position.cost. destruct (cost (lot p)) eqn:E; simpl; [reflexivity|].
  now rewrite E.
Qed.

Lemma position_cost_costless (p : Position) : cost (lot (position.cost p)) = None.
Proof. unfold position.cost. now destruct (cost (lot p)) eqn:E. Qed.

(** The operations on exact numbers agree with the methods of [Position]
    when these have nothing to round. *)
Lemma at_cost_agrees (p : Position) :
  (forall c, cost (lot p) = Some c ->
     number.round (number p * amount_number c)%Qc = (number p * amount_number c)%Qc) ->
  position.cost p = inventory.at_cost p.
Proof.
  unfold position.cost, inventory.at_cost, number.mul.
  destruct (cost (lot p)) as [c|]; [|reflexivity].
  intros H. now rewrite (H c eq_refl).
Qed.

Lemma negate_agrees (p : Position) :
  number.round (number p) = number p -> position.get_negative p = inventory.negate p.
Proof.
  intros H. unfold position.get_negative, inventory.negate.
  now rewrite number_neg_exact.
Qed.

Lemma increment_agrees (p : Position) (n : Decimal) :
  number.round (number p + n)%Qc = (number p + n)%Qc ->
  position.add p n = inventory.increment p n.
Proof. intros H. unfold position.add, inventory.increment, number.add. now rewrite H. Qed.

Lemma at_cost_idempotent (p : Position) :
  inventory.at_cost (inventory.at_cost p) = inventory.at_cost p.
Proof.
  unfold inventory.at_cost. destruct (cost (lot p)) eqn:E; simpl; [reflexivity|].
  now rewrite E.
Qed.

Lemma at_cost_costless (p : Position) : cost (lot (inventory.at_cost p)) = None.
Proof. unfold inventory.at_cost. now destruct (cost (lot p)) eqn:E. Qed.

Lemma cost_in_of_cost (l : Lot) (p : Position) :
  inventory.cost_in l (inventory.at_cost p) = inventory.cost_in l p.
Proof. unfold inventory.cost_in. now rewrite at_cost_idempotent. Qed.

Lemma cost_in_add (l l' : Lot) (a b : Decimal) :
  inventory.cost_in l (mkPosition l' (a + b)%Qc)
  = (inventory.cost_in l (mkPosition l' a) + inventory.cost_in l (mkPosition l' b))%Qc.
Proof.
  unfold inventory.cost_in, inventory.at_cost. simpl.
  destruct (cost l') as [k|]; simpl;
    destruct (Lot_eqb _ l); unfold number.ZERO in *; ring.
Qed.

Lemma cost_in_negative (l : Lot) (p : Position) :
  inventory.cost_in l (inventory.negate p) = (- inventory.cost_in l p)%Qc.
Proof.
  unfold inventory.cost_in, inventory.at_cost, inventory.negate. simpl.
  destruct (cost (lot p)) as [k|]; simpl;
    destruct (Lot_eqb _ l); unfold number.ZERO in *; ring.
Qed.

Lemma total_cost_in_app (l : Lot) (a b : list Position) :
  inventory.total_cost_in l (a ++ b)
  = (inventory.total_cost_in l a + inventory.total_cost_in l b)%Qc.
Proof.
  induction a as [|p a IH]; simpl.
  - unfold number.ZERO in *. ring.
  - rewrite IH. ring.
Qed.

Lemma total_cost_in_add (l : Lot) (inv : Inventory) (l' : Lot) (n : Decimal) :
  inventory.total_cost_in l (inventory.add inv l' n)
  = (inventory.total_cost_in l inv + inventory.cost_in l (mkPosition l' n))%Qc.
Proof.
  induction inv as [|p inv IH]; simpl.
  - unfold number.ZERO in *. ring.
  - destruct (Lot_eqb (lot p) l') eqn:E; simpl.
    + apply Lot_eqb_eq in E. subst l'. unfold inventory.increment.
      rewrite cost_in_add. destruct p as [lp np]. simpl. ring.
    + rewrite IH. ring.
Qed.

Lemma total_cost_in_booked (l : Lot) (ps : list Position) (inv : Inventory) :
  inventory.total_cost_in l (fold_left inventory.add_position ps inv)
  = (inventory.total_cost_in l inv + inventory.total_cost_in l ps)%Qc.
Proof.
  revert inv. induction ps as [|p ps IH]; intros inv; simpl.
  - unfold number.ZERO in *. ring.
  - rewrite IH. unfold inventory.add_position. rewrite total_cost_in_add.
    destruct p as [lp np]. simpl. ring.
Qed.

Lemma total_cost_in_neg (l : Lot) (inv : Inventory) :
  inventory.total_cost_in l (inventory.neg inv)
  = (- inventory.total_cost_in l inv)%Qc.
Proof.
  unfold inventory.neg. induction inv as [|p inv IH]; simpl.
  - unfold number.ZERO in *. ring.
  - rewrite cost_in_negative.
    change (list_fmap _ _ inventory.negate inv)
      with (inventory.negate <$> inv).
    rewrite IH. ring.
Qed.

Lemma get_cost_as_booking (inv : Inventory) (acc : Inventory) :
  fold_left (fun acc p => inventory.add_position acc (inventory.at_cost p)) inv acc
  = fold_left inventory.add_position (inventory.at_cost <$> inv) acc.
Proof.
  revert acc. induction inv as [|p inv IH]; intros acc; simpl; [reflexivity|].
  apply IH.
Qed.

Lemma total_cost_in_costs (l : Lot) (ps : list Position) :
  inventory.total_cost_in l (inventory.at_cost <$> ps) = inventory.total_cost_in l ps.
Proof.
  induction ps as [|p ps IH]; simpl; [reflexivity|].
  rewrite cost_in_of_cost.
  change (list_fmap _ _ inventory.at_cost ps) with (inventory.at_cost <$> ps).
  now rewrite IH.
Qed.

(** The cost projection keeps the units at cost of every lot. *)
Lemma total_cost_in_get_cost (l : Lot) (inv : Inventory) :
  inventory.total_cost_in l (inventory.get_cost inv) = inventory.total_cost_in l inv.
Proof.
  unfold inventory.get_cost.
  rewrite get_cost_as_booking, total_cost_in_booked, total_cost_in_costs.
  simpl. unfold number.ZERO in *. ring.
Qed.

Lemma add_lots (inv : Inventory) (l : Lot) (n : Decimal) (x : Lot) :
  x ∈ lot <$> inventory.add inv l n -> x ∈ lot <$> inv \/ x = l.
Proof.
  induction inv as [|p inv IH]; simpl.
  - intros H. apply list_elem_of_singleton in H. now right.
  - destruct (Lot_eqb (lot p) l); cbn [fmap list_fmap]; [tauto|].
    rewrite !elem_of_cons. intros [->|H]; [tauto|]. destruct (IH H); tauto.
Qed.

Lemma add_keeps_shape (inv : Inventory) (l : Lot) (n : Decimal) :
  inventory.at_cost_shape inv -> cost l = None ->
  inventory.at_cost_shape (inventory.add inv l n).
Proof.
  intros [Hall Hnodup] Hc. induction inv as [|p inv IH]; simpl.
  - split; [now repeat constructor|]. apply NoDup_singleton.
  - apply Forall_cons in Hall as [Hp Hall].
    cbn [fmap list_fmap] in Hnodup.
    apply NoDup_cons in Hnodup as [Hnotin Hnodup].
    destruct (IH Hall Hnodup) as [IH1 IH2].
    destruct (Lot_eqb (lot p) l) eqn:E.
    + split; [now constructor|]. cbn [fmap list_fmap]. simpl.
      now apply NoDup_cons.
    + split; [now constructor|]. cbn [fmap list_fmap].
      apply NoDup_cons. split; [|exact IH2].
      intros Hin. apply add_lots in Hin as [Hin|Hin]; [tauto|].
      rewrite Hin, Lot_eqb_refl in E. discriminate.
Qed.

Lemma booking_keeps_shape (ps : list Position) (inv : Inventory) :
  Forall (fun p => cost (lot p) = None) ps ->
  inventory.at_cost_shape inv ->
  inventory.at_cost_shape (fold_left inventory.add_position ps inv).
Proof.
  intros Hps. revert inv. induction Hps as [|p ps Hc _ IH]; intros inv Hinv;
    simpl; [exact Hinv|].
  apply IH. now apply add_keeps_shape.
Qed.

Lemma get_cost_shape (inv : Inventory) :
  inventory.at_cost_shape (inventory.get_cost inv).
Proof.
  unfold inventory.get_cost. rewrite get_cost_as_booking.
  apply booking_keeps_shape; [|split; constructor].
  apply List.Forall_forall. intros q Hq.
  apply in_map_iff in Hq as (p & <- & _). apply at_cost_costless.
Qed.

Lemma cost_in_costless (l : Lot) (p : Position) :
  cost (lot p) = None ->
  inventory.cost_in l p = if Lot_eqb (lot p) l then number p else ZERO.
Proof. intros H. unfold inventory.cost_in, inventory.at_cost. now rewrite H. Qed.

Lemma total_cost_in_absent (l : Lot) (inv : Inventory) :
  Forall (fun p => cost (lot p) = None) inv ->
  l ∉ lot <$> inv ->
  inventory.total_cost_in l inv = ZERO.
Proof.
  induction 1 as [|p inv Hc _ IH]; simpl; [reflexivity|].
  cbn [fmap list_fmap]. rewrite not_elem_of_cons. intros [Hne Hnotin].
  rewrite (cost_in_costless _ _ Hc).
  destruct (Lot_eqb (lot p) l) eqn:E.
  - apply Lot_eqb_eq in E. congruence.
  - rewrite (IH Hnotin). unfold number.ZERO. ring.
Qed.

Lemma at_cost_shape_number (inv : Inventory) :
  inventory.at_cost_shape inv ->
  forall p, In p inv -> inventory.total_cost_in (lot p) inv = number p.
Proof.
  intros [Hall Hnodup]. induction inv as [|q inv IH]; [intros ? []|].
  apply Forall_cons in Hall as [Hqc Hall].
  cbn [fmap list_fmap] in Hnodup.
  apply NoDup_cons in Hnodup as [Hnotin Hnodup].
  intros p [<-|Hin]; simpl.
  - rewrite (cost_in_costless _ _ Hqc), Lot_eqb_refl.
    rewrite total_cost_in_absent; [unfold number.ZERO; ring|exact Hall|exact Hnotin].
  - rewrite (cost_in_costless _ _ Hqc).
    destruct (Lot_eqb (lot q) (lot p)) eqn:E.
    + exfalso. apply Hnotin. apply Lot_eqb_eq in E. rewrite E.
      apply list_elem_of_fmap. exists p. split; [reflexivity|].
      now apply list_elem_of_In.
    + rewrite (IH Hall Hnodup p Hin). unfold number.ZERO. ring.
Qed.

(** An inventory in the shape of a cost projection is empty as soon as it
    holds zero units at cost of every lot. *)
Lemma at_cost_shape_empty (inv : Inventory) :
  inventory.at_cost_shape inv ->
  (forall l, inventory.total_cost_in l inv = ZERO) ->
  inventory.is_empty inv = true.
Proof.
  intros Hshape Hzero. unfold inventory.is_empty.
  apply forallb_forall. intros p Hin. apply number_eqb_eq.
  rewrite <- (at_cost_shape_number inv Hshape p Hin). apply Hzero.
Qed.

(** Positions whose units at cost cancel in every lot book to an inventory
    that is empty at cost. *)
Lemma balanced_positions_empty_at_cost (ps : list Position) :
  (forall l, inventory.total_cost_in l ps = ZERO) ->
  inventory.is_empty
    (inventory.get_cost (fold_left inventory.add_position ps [])) = true.
Proof.
  intros Hzero. apply at_cost_shape_empty; [apply get_cost_shape|].
  intros l. rewrite total_cost_in_get_cost, total_cost_in_booked, Hzero.
  simpl. unfold number.ZERO. ring.
Qed.

(** ** Balances of synthesized entries and of clamped streams *)

Lemma positions_of_app (a b : list Directive) :
  positions_of (a ++ b) = positions_of a ++ positions_of b.
Proof. unfold positions_of. now rewrite fmap_app, concat_app, fmap_app. Qed.

Lemma positions_of_postings_for (acc : string) (inv : Inventory) :
  position <$> postings_for acc inv = inv.
Proof.
  unfold postings_for, inventory.get_positions.
  rewrite <- list_fmap_compose. apply list_fmap_id.
Qed.

Lemma positions_of_entry_from_balance (d : date) (target : string) (forward : bool)
    (flag : ascii) (template : string) (item : string * Inventory) :
  exists balance,
    positions_of [entry_from_balance d target forward flag template item]
    = balance ++ inventory.neg (inventory.get_cost balance).
Proof.
  exists (if forward then snd item else inventory.neg (snd item)).
  unfold positions_of, entry_from_balance. cbn [fmap list_fmap postings_of concat].
  now rewrite app_nil_r, fmap_app, !positions_of_postings_for.
Qed.

Lemma compute_entries_balance_all (entries : list Directive) :
  compute_entries_balance entries None
  = fold_left inventory.add_position (positions_of entries) [].
Proof. unfold compute_entries_balance. now rewrite before_no_cutoff. Qed.

(** Every transaction built from a balance sums to zero at cost. *)
Lemma entry_from_balance_balanced (d : date) (target : string) (forward : bool)
    (flag : ascii) (template : string) (item : string * Inventory) :
  inventory.is_empty
    (inventory.get_cost
       (compute_entries_balance
          [entry_from_balance d target forward flag template item] None)) = true.
Proof.
  rewrite compute_entries_balance_all.
  destruct (positions_of_entry_from_balance d target forward flag template item)
    as [balance ->].
  apply balanced_positions_empty_at_cost. intros l.
  rewrite total_cost_in_app, total_cost_in_neg, total_cost_in_get_cost.
  unfold number.ZERO. ring.
Qed.

(** After [conversions] on a stream that lies before the cutoff, the balance
    of the stream is empty at cost. *)
Lemma conversions_balanced (entries : list Directive) (acc cur : string) (d : date) :
  Forall (fun e => datetime.ltb (date_of e) d = true) entries ->
  inventory.is_empty
    (inventory.get_cost
       (compute_entries_balance (conversions entries acc cur (Some d)) None)) = true.
Proof.
  intros Hbefore. unfold conversions.
  assert (Hbal : compute_entries_balance entries (Some d)
                 = compute_entries_balance entries None).
  { unfold compute_entries_balance.
    now rewrite before_no_cutoff, (before_fixed _ _ Hbefore). }
  rewrite Hbal.
  destruct (inventory.is_empty
              (inventory.get_cost (compute_entries_balance entries None))) eqn:E;
    [exact E|].
  rewrite (before_fixed _ _ Hbefore), firstn_all, drop_all.
  rewrite compute_entries_balance_all, positions_of_app.
  apply balanced_positions_empty_at_cost. intros l.
  rewrite total_cost_in_app.
  unfold positions_of at 2. cbn [fmap list_fmap postings_of concat].
  rewrite app_nil_r, <- list_fmap_compose.
  change (inventory.total_cost_in l _ + inventory.total_cost_in l _)%Qc
    with (inventory.total_cost_in l (positions_of entries)
          + inventory.total_cost_in l
              (inventory.neg (inventory.get_cost
                 (compute_entries_balance entries None))))%Qc.
  rewrite total_cost_in_neg, total_cost_in_get_cost.
  rewrite compute_entries_balance_all, total_cost_in_booked.
  simpl. unfold number.ZERO. ring.
Qed.

(** What [conversions] adds to a stream is flagged as a conversion. *)
Lemma conversions_entries (entries : list Directive) (acc cur : string)
    (cutoff : option date) (entry : Directive) :
  In entry (conversions entries acc cur cutoff) ->
  In entry entries \/
  exists d narration postings,
    entry = Transaction d flags.FLAG_CONVERSIONS narration postings.
Proof.
  unfold conversions.
  destruct (inventory.is_empty _); [now left|].
  intros Hin. apply in_app_or in Hin as [Hin|[<-|Hin]].
  - left. rewrite <- (take_drop (List.length (before entries cutoff)) entries).
    apply in_or_app. now left.
  - right. eauto.
  - left. rewrite <- (take_drop (List.length (before entries cutoff)) entries).
    apply in_or_app. now right.
Qed.



(** The scenario of [TestClamp.test_clamp]: three opening balances dated
    2012-05-31, the two entries of the window, one conversion entry dated
    2012-08-31; the balance of the input is not empty, that of the clamped
    stream is. *)
Example test_clamp_scenario :
  snd fixtures.clamped = 3%nat /\
  (fun e => (date_str (date_of e),
             match e with Transaction _ flag _ _ => flag | _ => " "%char end))
    <$> fst fixtures.clamped
  = [("2012-05-31", "S"%char); ("2012-05-31", "S"%char); ("2012-05-31", "S"%char);
     ("2012-08-01", "*"%char); ("2012-08-02", "*"%char); ("2012-08-31", "C"%char)] /\
  inventory.is_empty (compute_entries_balance fixtures.clamp_entries None) = false /\
  inventory.is_empty (compute_entries_balance (fst fixtures.clamped) None) = true.
Proof. repeat split; vm_compute; reflexivity. Qed.

Lemma truncate_prefix_filter_idempotent_witness :
  truncate fixtures.truncate_entries (datetime.mkDate 2014 3 13)
  = List.filter (fun e => datetime.ltb (date_of e) (datetime.mkDate 2014 3 13))
                fixtures.truncate_entries.
Proof.
  assert (Hordered : date_ordered fixtures.truncate_entries)
    by (unfold date_ordered, fixtures.truncate_entries; repeat constructor).
  apply (proj2 (proj2 (proj2 (truncate_prefix_filter_idempotent
                                fixtures.truncate_entries (datetime.mkDate 2014 3 13))))
               Hordered).
Defined.

(** * Further properties of position.py *)

(** ** Cost, weight and negation together *)

(** X1. The cost projection of a position is costless, projecting again
    changes nothing, and its units are the cost amount of the position. *)
Theorem cost_projection_units (p : Position) :
  cost (lot (position.cost p)) = None /\
  position.cost (position.cost p) = position.cost p /\
  position.get_units (position.cost p) = position.get_cost p.
Proof.
  unfold position.cost, position.get_units, position.get_cost, amount.amount_mult.
  destruct (cost (lot p)) as [c|] eqn:E; simpl; rewrite ?E; repeat split.
  f_equal. unfold number.mul. now rewrite Qcmult_comm.
Qed.

(** X2. When the lot has a cost or no price is given, the weight of a
    position is its cost amount, and no error is raised: a price is looked
    at only for a lot without cost. *)
Theorem weight_is_cost_amount (p : Position) (price : option Amount) :
  is_Some (cost (lot p)) \/ price = None ->
  position.get_weight p price = Ok (position.get_cost p).
Proof.
  unfold position.get_weight, position.get_cost.
  intros [[c ->]| ->]; [reflexivity|].
  now destruct (cost (lot p)).
Qed.

Lemma weight_is_cost_amount_witness :
  position.get_weight
    (mkPosition (mkLot "HOOL" (Some (mkAmount (dec "500") "USD")) None)
                (dec "10"))
    (Some (mkAmount (dec "510") "USD"))
  = Ok (position.get_cost
          (mkPosition (mkLot "HOOL" (Some (mkAmount (dec "500") "USD")) None)
                      (dec "10"))).
Proof.
  apply (weight_is_cost_amount
           (mkPosition (mkLot "HOOL" (Some (mkAmount (dec "500") "USD")) None)
                       (dec "10"))
           (Some (mkAmount (dec "510") "USD"))).
  left. simpl. eauto.
Defined.

Lemma number_mul_neg (a b : Decimal) :
  number.round a = a -> number.mul (number.neg a) b = number.neg (number.mul a b).
Proof.
  intros H. unfold number.mul. rewrite (number_neg_exact a H).
  unfold number.neg. rewrite round_opp, round_idempotent, <- round_opp.
  f_equal. ring.
Qed.



(** X4. A position built from amounts gives the units amount and the cost
    back, has no date, and every undated position is rebuilt from its
    units and its cost. *)
Theorem from_amounts_round_trip (a : Amount) (c : option Amount) (p : Position) :
  position.get_units (position.from_amounts a c) = a /\
  cost (lot (position.from_amounts a c)) = c /\
  lot_date (lot (position.from_amounts a c)) = None /\
  (lot_date (lot p) = None ->
   position.from_amounts (position.get_units p) (cost (lot p)) = p).
Proof.
  unfold position.from_amounts, position.get_units. simpl.
  destruct a as [n cur]. repeat split.
  destruct p as [[cur' c' d'] n']. simpl. now intros ->.
Qed.

Lemma from_amounts_round_trip_witness :
  position.from_amounts
    (position.get_units
       (mkPosition (mkLot "HOOL" (Some (mkAmount (dec "500") "USD")) None)
                   (dec "10")))
    (Some (mkAmount (dec "500") "USD"))
  = mkPosition (mkLot "HOOL" (Some (mkAmount (dec "500") "USD")) None)
               (dec "10").
Proof.
  apply (proj2 (proj2 (proj2 (from_amounts_round_trip
           (mkAmount ZERO EmptyString) None
           (mkPosition (mkLot "HOOL" (Some (mkAmount (dec "500") "USD")) None)
                       (dec "10")))))).
  reflexivity.
Defined.

(** ** Equality *)

(** X5. Equality of positions is reflexive, symmetric and transitive. *)
Theorem position_eq_equivalence (p q r : Position) :
  position.__eq__ p (Some p) = true /\
  position.__eq__ p (Some q) = position.__eq__ q (Some p) /\
  (position.__eq__ p (Some q) = true -> position.__eq__ q (Some r) = true ->
   position.__eq__ p (Some r) = true).
Proof.
  unfold position.__eq__. split; [|split].
  - now rewrite number_eqb_refl, Lot_eqb_refl.
  - destruct (number.eqb (number p) (number q)) eqn:En,
             (Lot_eqb (lot p) (lot q)) eqn:El; simpl.
    + apply number_eqb_eq in En. apply Lot_eqb_eq in El.
      now rewrite En, El, number_eqb_refl, Lot_eqb_refl.
    + apply Lot_eqb_neq in El. symmetry. apply andb_false_iff. right.
      apply Lot_eqb_neq. congruence.
    + apply number_eqb_neq in En. symmetry. apply andb_false_iff. left.
      apply number_eqb_neq. congruence.
    + apply number_eqb_neq in En. symmetry. apply andb_false_iff. left.
      apply number_eqb_neq. congruence.
  - rewrite !andb_true_iff, !number_eqb_eq, !Lot_eqb_eq.
    intros [-> ->] [-> ->]. split; reflexivity.
Qed.

Lemma position_eq_equivalence_witness :
  position.__eq__ (mkPosition (mkLot "USD" None None) (dec "1"))
                  (Some (mkPosition (mkLot "USD" None None) (dec "1.0"))) = true.
Proof.
  apply (proj2 (proj2 (position_eq_equivalence
           (mkPosition (mkLot "USD" None None) (dec "1"))
           (mkPosition (mkLot "USD" None None) (dec "1.00"))
           (mkPosition (mkLot "USD" None None) (dec "1.0"))))).
  - vm_compute. reflexivity.
  - vm_compute. reflexivity.
Defined.

(** X6. Two positions with zero units both compare equal to None, yet they
    compare equal to each other only when their lots are equal: equality
    through None is not transitive. *)
Theorem zero_positions_equal_none (p q : Position) :
  number p = ZERO -> number q = ZERO ->
  position.__eq__ p None = true /\ position.__eq__ q None = true /\
  (position.__eq__ p (Some q) = true <-> lot p = lot q).
Proof.
  intros Hp Hq. unfold position.__eq__.
  rewrite Hp, Hq, number_eqb_refl. simpl. repeat split; apply Lot_eqb_eq.
Qed.

Lemma zero_positions_equal_none_witness :
  position.__eq__ (mkPosition (mkLot "USD" None None) (dec "0")) None = true /\
  position.__eq__ (mkPosition (mkLot "CAD" None None) (dec "0.00")) None = true /\
  position.__eq__ (mkPosition (mkLot "USD" None None) (dec "0"))
                  (Some (mkPosition (mkLot "CAD" None None) (dec "0.00"))) = false.
Proof.
  assert (Hp : dec "0" = ZERO) by (apply Qc_is_canon; reflexivity).
  assert (Hq : dec "0.00" = ZERO) by (apply Qc_is_canon; reflexivity).
  destruct (zero_positions_equal_none
              (mkPosition (mkLot "USD" None None) (dec "0"))
              (mkPosition (mkLot "CAD" None None) (dec "0.00")) Hp Hq)
    as (H1 & H2 & H3).
  split; [exact H1|split; [exact H2|]].
  apply not_true_is_false. intros E. apply H3 in E. discriminate.
Defined.

(** ** More on the sort order *)

Lemma currency_order_lookup (c : string) (rank default : Z) :
  In (c, rank) CURRENCY_ORDER -> dict_get CURRENCY_ORDER c default = rank.
Proof.
  unfold CURRENCY_ORDER. simpl.
  intros H. repeat destruct H as [H|H]; try contradiction;
    injection H as <- <-; reflexivity.
Qed.

Section MoreOrderingFacts.

Variable amount_bool : Amount -> bool.
Variable NULL_AMOUNT : Amount.
Variable amount_lt : Amount -> Amount -> bool.

Local Abbreviation lt := (__lt__ amount_bool NULL_AMOUNT amount_lt).

(** X7. No position sorts before itself, nor before a position equal to
    it, whatever the order of amounts is. *)
Theorem lt_irreflexive (p q : Position) :
  lt p p = false /\
  (position.__eq__ p (Some q) = true -> lt p q = false /\ lt q p = false).
Proof.
  assert (Hirr : forall x, lt x x = false).
  { intros x. unfold __lt__, tuple_lt.
    destruct (sortkey _ _ x) as [[o c] n].
    rewrite Z.eqb_refl. simpl.
    replace (amount.eqb c c) with true by (symmetry; now apply amount_eqb_eq).
    simpl. unfold number.ltb. apply bool_decide_eq_false.
    apply Qcle_not_lt, Qcle_refl. }
  split; [apply Hirr|].
  unfold position.__eq__. rewrite andb_true_iff, number_eqb_eq, Lot_eqb_eq.
  intros [Hn Hl]. destruct p as [lp np], q as [lq nq]. simpl in *. subst.
  split; apply Hirr.
Qed.

(** X8. Positions of one lot sort by their number of units. *)
Theorem same_lot_sorts_by_number (p q : Position) :
  lot p = lot q ->
  (lt p q = true <-> (number p < number q)%Qc).
Proof.
  intros Hl. unfold __lt__, tuple_lt, sortkey. rewrite Hl.
  rewrite Z.eqb_refl. simpl.
  replace (amount.eqb _ _) with true by (symmetry; now apply amount_eqb_eq).
  simpl. unfold number.ltb. apply bool_decide_eq_true.
Qed.

(** X9. Positions in currencies of the priority table sort in the order
    of the table, whatever their costs and numbers. *)
Theorem table_order (p q : Position) (a b : Z) :
  In (currency (lot p), a) CURRENCY_ORDER ->
  In (currency (lot q), b) CURRENCY_ORDER ->
  a < b ->
  lt p q = true /\ lt q p = false.
Proof.
  intros Hp Hq Hab. apply lt_by_rank. unfold sortkey. simpl.
  now rewrite (currency_order_lookup _ _ _ Hp), (currency_order_lookup _ _ _ Hq).
Qed.

(** X10. Currencies outside the table that have the same length are not
    told apart by the order: with equal costs and numbers neither position
    sorts before the other, whatever the spelling of the currencies. *)
Theorem unknown_same_length_tie (p q : Position) :
  known_currency (currency (lot p)) = false ->
  known_currency (currency (lot q)) = false ->
  String.length (currency (lot p)) = String.length (currency (lot q)) ->
  cost (lot p) = cost (lot q) ->
  number p = number q ->
  lt p q = false /\ lt q p = false.
Proof.
  intros Hp Hq Hlen Hc Hn. unfold __lt__, tuple_lt, sortkey.
  rewrite (unknown_currency_order _ _ Hp), (unknown_currency_order _ _ Hq).
  rewrite Hlen, Hc, Hn, Z.eqb_refl. simpl.
  replace (amount.eqb _ _) with true by (symmetry; now apply amount_eqb_eq).
  simpl. unfold number.ltb.
  split; apply bool_decide_eq_false, Qcle_not_lt, Qcle_refl.
Qed.

End MoreOrderingFacts.

Lemma lt_irreflexive_witness :
  __lt__ (fun _ => true) (mkAmount ZERO EmptyString) (fun _ _ => true)
    (mkPosition (mkLot "USD" None None) (dec "1"))
    (mkPosition (mkLot "USD" None None) (dec "1.0")) = false.
Proof.
  apply (proj2 (lt_irreflexive (fun _ => true) (mkAmount ZERO EmptyString)
                  (fun _ _ => true)
                  (mkPosition (mkLot "USD" None None) (dec "1"))
                  (mkPosition (mkLot "USD" None None) (dec "1.0")))).
  vm_compute. reflexivity.
Defined.

Lemma same_lot_sorts_by_number_witness :
  __lt__ (fun _ => true) (mkAmount ZERO EmptyString) (fun _ _ => false)
    (mkPosition (mkLot "HOOL" (Some (mkAmount (dec "500") "USD")) None)
                (dec "-3"))
    (mkPosition (mkLot "HOOL" (Some (mkAmount (dec "500") "USD")) None)
                (dec "10")) = true.
Proof.
  apply (same_lot_sorts_by_number (fun _ => true) (mkAmount ZERO EmptyString)
           (fun _ _ => false)
           (mkPosition (mkLot "HOOL" (Some (mkAmount (dec "500") "USD")) None)
                       (dec "-3"))
           (mkPosition (mkLot "HOOL" (Some (mkAmount (dec "500") "USD")) None)
                       (dec "10")) eq_refl).
  reflexivity.
Defined.

Lemma table_order_witness :
  __lt__ (fun _ => true) (mkAmount ZERO EmptyString) (fun _ _ => false)
    (mkPosition (mkLot "EUR" None None) (dec "100"))
    (mkPosition (mkLot "CAD" None None) (dec "1")) = true /\
  __lt__ (fun _ => true) (mkAmount ZERO EmptyString) (fun _ _ => false)
    (mkPosition (mkLot "CAD" None None) (dec "1"))
    (mkPosition (mkLot "EUR" None None) (dec "100")) = false.
Proof.
  apply (table_order (fun _ => true) (mkAmount ZERO EmptyString) (fun _ _ => false)
           (mkPosition (mkLot "EUR" None None) (dec "100"))
           (mkPosition (mkLot "CAD" None None) (dec "1")) 1 3).
  - simpl. tauto.
  - simpl. tauto.
  - lia.
Defined.

Lemma unknown_same_length_tie_witness :
  __lt__ (fun _ => true) (mkAmount ZERO EmptyString) (fun _ _ => true)
    (mkPosition (mkLot "GOOG" None None) (dec "1"))
    (mkPosition (mkLot "HOOL" None None) (dec "1")) = false /\
  __lt__ (fun _ => true) (mkAmount ZERO EmptyString) (fun _ _ => true)
    (mkPosition (mkLot "HOOL" None None) (dec "1"))
    (mkPosition (mkLot "GOOG" None None) (dec "1")) = false.
Proof.
  apply (unknown_same_length_tie (fun _ => true) (mkAmount ZERO EmptyString)
           (fun _ _ => true)
           (mkPosition (mkLot "GOOG" None None) (dec "1"))
           (mkPosition (mkLot "HOOL" None None) (dec "1")));
    reflexivity.
Defined.

(** ** More on positions in the store *)

Lemma heap_add_run (h : Heap.heap) (r : Heap.ref) (p : Position) (n : Decimal) :
  h !! r = Some p -> Heap.add r n h = Ok (tt, <[r := position.add p n]> h).
Proof.
  intros Hr. unfold Heap.add, mbind, Heap.M_bind. now rewrite (heap_load _ _ _ Hr).
Qed.



(** Without that proviso the additions do not compose: on 1, adding 10^28
    and then taking it away again leaves 0. *)
Example add_rounds :
  (_ ← Heap.add 0%nat (dec "1e28"); Heap.add 0%nat (dec "-1e28"))
    [mkPosition (mkLot "USD" None None) (dec "1")]
  = Ok (tt, [mkPosition (mkLot "USD" None None) (dec "0")]).
Proof. vm_compute. reflexivity. Qed.

(** X12. A copy is a new object equal to the original, and adding units to
    the copy leaves the original, and every other object, as it was. *)
Theorem copy_is_isolated (h : Heap.heap) (r : Heap.ref) (p : Position) (n : Decimal) :
  h !! r = Some p ->
  exists q h',
    (q ← Heap.__copy__ r; _ ← Heap.add q n; mret q) h = Ok (q, h') /\
    q <> r /\
    h' !! r = Some p /\
    h' !! q = Some (mkPosition (lot p) (number.add (number p) n)) /\
    take (List.length h) h' = h /\
    position.__eq__ (position.__copy__ p) (Some p) = true.
Proof.
  intros Hr. pose proof (lookup_lt_Some _ _ _ Hr) as Hlt.
  exists (List.length h), (h ++ [position.add (position.__copy__ p) n]).
  unfold Heap.heap, Heap.ref in *. repeat split.
  - unfold Heap.__copy__, Heap.new, mbind, mret, Heap.M_bind, Heap.M_ret.
    rewrite (heap_load _ _ _ Hr).
    rewrite (heap_add_run (h ++ [position.__copy__ p]) (List.length h)
               (position.__copy__ p) n).
    + rewrite (insert_app_r_alt h [position.__copy__ p] (List.length h)) by lia.
      now rewrite Nat.sub_diag.
    + rewrite (lookup_app_r h) by lia. now rewrite Nat.sub_diag.
  - lia.
  - now rewrite lookup_app_l.
  - now rewrite lookup_app_r, Nat.sub_diag by lia.
  - now rewrite take_app_length.
  - now apply position_eq_fields.
Qed.

Lemma copy_is_isolated_witness :
  exists q h',
    (q ← Heap.__copy__ 0%nat; _ ← Heap.add q (dec "1"); mret q)
      [mkPosition (mkLot "USD" None None) (dec "1")] = Ok (q, h') /\
    h' !! 0%nat = Some (mkPosition (mkLot "USD" None None) (dec "1")).
Proof.
  destruct (copy_is_isolated [mkPosition (mkLot "USD" None None) (dec "1")]
              0%nat (mkPosition (mkLot "USD" None None) (dec "1"))
              (dec "1") eq_refl)
    as (q & h' & Hrun & _ & Hr & _).
  exists q, h'. split; [exact Hrun|exact Hr].
Defined.

(** X13. [cost()] hands back the receiver itself exactly when the lot has
    no cost; otherwise it returns a new object.  Either way the object
    returned is the cost projection and no existing object changes. *)
Theorem cost_returns_self_iff_costless (h : Heap.heap) (r : Heap.ref) (p : Position) :
  h !! r = Some p ->
  exists q h',
    Heap.cost r h = Ok (q, h') /\
    (q = r <-> cost (lot p) = None) /\
    h' !! q = Some (position.cost p) /\
    take (List.length h) h' = h.
Proof.
  intros Hr. pose proof (lookup_lt_Some _ _ _ Hr) as Hlt.
  unfold Heap.cost, Heap.new, mbind, mret, Heap.M_bind, Heap.M_ret.
  rewrite (heap_load _ _ _ Hr). unfold Heap.heap, Heap.ref in *.
  destruct (cost (lot p)) as [c|] eqn:E.
  - exists (List.length h), (h ++ [position.cost p]).
    split; [reflexivity|]. split; [|split].
    + split; [intros Hq; lia|discriminate].
    + rewrite (lookup_app_r h) by lia. now rewrite Nat.sub_diag.
    + now rewrite take_app_length.
  - exists r, h. split; [reflexivity|]. split; [|split].
    + split; reflexivity.
    + rewrite Hr. unfold position.cost. now rewrite E.
    + now apply firstn_all.
Qed.

Lemma cost_returns_self_iff_costless_witness :
  exists q h',
    Heap.cost 0%nat
      [mkPosition (mkLot "HOOL" (Some (mkAmount (dec "500") "USD")) None)
                  (dec "10")] = Ok (q, h') /\
    q <> 0%nat.
Proof.
  destruct (cost_returns_self_iff_costless
              [mkPosition (mkLot "HOOL" (Some (mkAmount (dec "500") "USD")) None)
                          (dec "10")]
              0%nat
              (mkPosition (mkLot "HOOL" (Some (mkAmount (dec "500") "USD")) None)
                          (dec "10")) eq_refl)
    as (q & h' & Hrun & Hiff & _).
  exists q, h'. split; [exact Hrun|].
  intros Hq. apply Hiff in Hq. discriminate.
Defined.

(** ** Rendering and negative lots *)

Section RenderingFacts.

Variable amount_bool : Amount -> bool.
Variable amount_to_string : Amount -> string.

(** X14. A position whose lot has a date but no cost (or a cost that counts
    as false) is rendered with a comma right after the opening brace: the
    units, a space, then the date between [{, ] and [}]. *)
Theorem to_string_dated_without_cost (p : Position) (d : date) :
  cost_bool amount_bool (lot p) = false ->
  lot_date (lot p) = Some d ->
  to_string amount_bool amount_to_string p true
  = amount_to_string (position.get_units p) +:+ " {, " +:+ summarize.date_str d +:+ "}".
Proof.
  intros Hc Hd. unfold to_string, lot_date_bool, position.get_units.
  rewrite Hc, Hd. unfold cost_bool in Hc. cbn [orb].
  destruct (cost (lot p)) as [c|]; [rewrite Hc|]; reflexivity.
Qed.

(** X15. For a lot without a date, the detailed and the short rendering
    agree whenever the cost is absent or counts as true; the short rendering
    never shows the date. *)
Theorem to_string_detail_agrees (p : Position) :
  (lot_date (lot p) = None ->
   cost_bool amount_bool (lot p) = bool_decide (is_Some (cost (lot p))) ->
   to_string amount_bool amount_to_string p true
   = to_string amount_bool amount_to_string p false) /\
  to_string amount_bool amount_to_string p false
  = to_string amount_bool amount_to_string
      (mkPosition (mkLot (currency (lot p)) (cost (lot p)) None) (number p)) false.
Proof.
  split; [|reflexivity].
  intros Hd Hc. unfold to_string, lot_date_bool. rewrite Hc, Hd.
  unfold cost_bool in Hc.
  destruct (cost (lot p)) as [[n cur]|]; [|reflexivity].
  rewrite Hc. reflexivity.
Qed.

(** X16. A position and its negation are never both negative at cost, and a
    position whose lot has neither a cost nor a date never is. *)
Theorem negative_at_cost_exclusive (p : Position) :
  is_negative_at_cost amount_bool p && is_negative_at_cost amount_bool (position.get_negative p)
  = false /\
  (cost (lot p) = None -> lot_date (lot p) = None ->
   is_negative_at_cost amount_bool p = false).
Proof.
  unfold is_negative_at_cost, cost_bool, lot_date_bool, number.ltb. split.
  - cbn [position.get_negative lot number].
    destruct (bool_decide (number p < ZERO)%Qc) eqn:E1; [|reflexivity].
    destruct (bool_decide (number.neg (number p) < ZERO)%Qc) eqn:E2;
      [|now rewrite andb_false_l, andb_false_r].
    apply bool_decide_eq_true in E1, E2. exfalso.
    unfold number.neg in E2. apply (proj1 (round_ltb_zero _)) in E2.
    apply Qc_opp_pos in E1.
    exact (Qclt_not_le _ _ E2 (Qclt_le_weak _ _ E1)).
  - intros -> ->. now rewrite andb_false_r.
Qed.

End RenderingFacts.

Lemma to_string_dated_without_cost_witness :
  to_string (fun _ => true) (fun a => amount_currency a)
    (mkPosition (mkLot "HOOL" None (Some (datetime.mkDate 2014 6 15))) (dec "10"))
    true
  = "HOOL {, 2014-06-15}".
Proof.
  apply (to_string_dated_without_cost (fun _ => true) (fun a => amount_currency a)
           (mkPosition (mkLot "HOOL" None (Some (datetime.mkDate 2014 6 15)))
                       (dec "10"))
           (datetime.mkDate 2014 6 15)); reflexivity.
Defined.

Lemma to_string_detail_agrees_witness :
  to_string (fun _ => true) (fun a => amount_currency a)
    (mkPosition (mkLot "HOOL" (Some (mkAmount (dec "500") "USD")) None)
                (dec "10")) true
  = to_string (fun _ => true) (fun a => amount_currency a)
      (mkPosition (mkLot "HOOL" (Some (mkAmount (dec "500") "USD")) None)
                  (dec "10")) false.
Proof.
  apply (proj1 (to_string_detail_agrees (fun _ => true) (fun a => amount_currency a)
                  (mkPosition (mkLot "HOOL" (Some (mkAmount (dec "500") "USD")) None)
                              (dec "10")))); reflexivity.
Defined.

Lemma negative_at_cost_exclusive_witness :
  is_negative_at_cost (fun _ => true)
    (mkPosition (mkLot "USD" None None) (dec "-5")) = false.
Proof.
  apply (proj2 (negative_at_cost_exclusive (fun _ => true)
                  (mkPosition (mkLot "USD" None None) (dec "-5"))));
    reflexivity.
Defined.

(** ** More on the parser of positions *)

Lemma per_unit_cost_raises (number per_number total_number : Decimal) (e : exn) :
  per_unit_cost number per_number total_number = Raise e ->
  e = DivisionByZero /\ number = ZERO.
Proof.
  unfold per_unit_cost, number.div.
  destruct (number.truthy total_number) eqn:Et; [|discriminate].
  destruct (number.eqb number ZERO) eqn:En; [|discriminate].
  apply number_eqb_eq in En. subst number.
  rewrite total_cost_zero_units.
  apply number_truthy_true in Et.
  replace (number.eqb (number.round total_number) ZERO) with false.
  - now intros [= <-].
  - symmetry. apply number_eqb_neq. now rewrite round_eq_zero.
Qed.

Lemma date_new_message (y m d : Z) (e : exn) :
  datetime.date_new y m d = Raise e ->
  exists msg, e = ValueError msg /\ String.prefix "Invalid s" msg = false.
Proof.
  unfold datetime.date_new.
  repeat match goal with
         | |- context [if ?b then _ else _] => destruct b
         end; intros [= <-]; eexists; split; reflexivity.
Qed.

Section MoreParserFacts.

Import Regex.

Variable NUMBER_RE : regex.
Variable CURRENCY_RE : regex.
Variable D : string -> result Decimal.

Local Abbreviation POSITION := (POSITION_RE NUMBER_RE CURRENCY_RE).
Local Abbreviation COMPOUND := (COMPOUND_RE NUMBER_RE CURRENCY_RE).
Local Abbreviation component := (cost_component NUMBER_RE CURRENCY_RE D).
Local Abbreviation components := (cost_components NUMBER_RE CURRENCY_RE D).
Local Abbreviation parse := (from_string NUMBER_RE CURRENCY_RE D).

Lemma D_or_zero_raises (x : string) (e : exn) :
  D_or_zero D x = Raise e -> D x = Raise e.
Proof. unfold D_or_zero. now destruct (String.eqb x EmptyString). Qed.

(** What a component can raise: a division error, with zero units only, a
    [ValueError] whose message is not the one for a string that does not
    match, or what [D] raises on a text. *)
Lemma cost_component_raises (number : Decimal)
    (state : option Amount * option date) (expr : string) (e : exn) :
  component number state expr = Raise e ->
  (e = DivisionByZero /\ number = ZERO) \/
  (exists msg, e = ValueError msg /\ String.prefix "Invalid s" msg = false) \/
  (exists text, D text = Raise e).
Proof.
  unfold cost_component.
  destruct (re_match COMPOUND expr) as [m|].
  { destruct (D_or_zero D (group_str 1 m)) as [per_number|e1] eqn:E1;
      cbn [mbind result_bind].
    2:{ intros [= ->]. right. right. eauto using D_or_zero_raises. }
    destruct (D_or_zero D (group_str 2 m)) as [total_number|e2] eqn:E2;
      cbn [mbind result_bind].
    2:{ intros [= ->]. right. right. eauto using D_or_zero_raises. }
    destruct (per_unit_cost _ _ _) eqn:E; [discriminate|].
    intros [= <-]. left. now apply per_unit_cost_raises in E. }
  destruct (re_match DATE_RE expr).
  { destruct (datetime.date_new _ _ _) eqn:E; [discriminate|].
    intros [= <-]. right. left. now apply date_new_message in E. }
  destruct (re_match LABEL_RE expr); [discriminate|].
  destruct (re_match MERGE_RE expr); [discriminate|].
  intros [= <-]. right. left. eexists. split; reflexivity.
Qed.

Lemma cost_components_raises (number : Decimal) (exprs : list string) (e : exn) :
  forall state,
    components number exprs state = Raise e ->
    (e = DivisionByZero /\ number = ZERO) \/
    (exists msg, e = ValueError msg /\ String.prefix "Invalid s" msg = false) \/
    (exists text, D text = Raise e).
Proof.
  induction exprs as [|expr rest IH]; intros state; [discriminate|].
  cbn [cost_components].
  destruct (component number state expr) as [state'|e'] eqn:E; cbn [mbind result_bind].
  - apply IH.
  - intros [= <-]. now apply cost_component_raises in E.
Qed.


(** X19. Provided the reader of numbers has no error message of its own
    that begins like it, the error [Invalid string for position] is raised
    exactly for the strings that do not match the overall pattern: no
    failure inside the cost block is reported under that message. *)
Theorem invalid_string_iff_no_match (text : string) :
  (forall number_text msg,
     D number_text = Raise (ValueError msg) -> String.prefix "Invalid s" msg = false) ->
  (parse text = Raise (ValueError ("Invalid string for position: '" +:+ text +:+ "'"))
   <-> re_match POSITION text = None).
Proof.
  intros HD. unfold from_string. split.
  - destruct (re_match POSITION text) as [m|]; [|reflexivity].
    destruct (D (group_str 1 m)) as [number|e0] eqn:En; cbn [mbind result_bind].
    2:{ intros [= ->]. apply HD in En. discriminate. }
    destruct (String.eqb (group_str 3 m) EmptyString); [discriminate|].
    destruct (components _ _ _) as [state|e'] eqn:E; [discriminate|].
    intros [= ->].
    apply cost_components_raises in E
      as [[? _]|[(msg & [= <-] & Hmsg)|(number_text & Hraise)]];
      [discriminate|discriminate|].
    apply HD in Hraise. discriminate.
  - now intros ->.
Qed.

End MoreParserFacts.


Lemma invalid_string_iff_no_match_witness :
  from_string_std "10 hool" = Raise (ValueError "Invalid string for position: '10 hool'").
Proof.
  apply (proj2 (invalid_string_iff_no_match number.NUMBER_RE amount.CURRENCY_RE
                  number.D "10 hool" number_D_no_ValueError)).
  vm_compute. reflexivity.
Defined.

Section ComponentFacts.

Import Regex.

Variable NUMBER_RE : regex.
Variable CURRENCY_RE : regex.
Variable D : string -> result Decimal.

Local Abbreviation POSITION := (POSITION_RE NUMBER_RE CURRENCY_RE).
Local Abbreviation COMPOUND := (COMPOUND_RE NUMBER_RE CURRENCY_RE).
Local Abbreviation component := (cost_component NUMBER_RE CURRENCY_RE D).
Local Abbreviation components := (cost_components NUMBER_RE CURRENCY_RE D).
Local Abbreviation parse := (from_string NUMBER_RE CURRENCY_RE D).

Lemma components_app (number : Decimal) (a b : list string)
    (state : option Amount * option date) :
  components number (a ++ b) state
  = state' ← components number a state; components number b state'.
Proof.
  revert state. induction a as [|e a IH]; intros state; [reflexivity|].
  simpl. destruct (component number state e); simpl; [apply IH|reflexivity].
Qed.

(** X20. A quoted label or a merge marker in the cost block is dropped:
    the loop over the components gives the same result with it as without
    it. *)
Theorem label_and_merge_are_dropped (number : Decimal) (pre post : list string)
    (expr : string) (state : option Amount * option date) :
  re_match COMPOUND expr = None ->
  re_match DATE_RE expr = None ->
  re_match LABEL_RE expr <> None \/ re_match MERGE_RE expr <> None ->
  components number (pre ++ expr :: post) state
  = components number (pre ++ post) state.
Proof.
  intros Hc Hd Hlm. rewrite !components_app.
  destruct (components number pre state) as [state1|]; [|reflexivity].
  cbn [mbind result_bind cost_components]. unfold cost_component.
  rewrite Hc, Hd.
  destruct (re_match LABEL_RE expr); [reflexivity|].
  destruct (re_match MERGE_RE expr); [reflexivity|].
  destruct Hlm; congruence.
Qed.

(** What a cost spec and a date token do to the state when accepted: the
    one sets the cost, the other the date, whatever the state was. *)
Lemma cost_spec_sets_cost (number : Decimal) (expr : string)
    (state state' : option Amount * option date) :
  re_match COMPOUND expr <> None ->
  component number state expr = Ok state' ->
  snd state' = snd state /\
  forall other, component number other expr = Ok (fst state', snd other).
Proof.
  intros Hc. unfold cost_component.
  destruct (re_match COMPOUND expr) as [m|]; [|congruence].
  destruct (D_or_zero D (group_str 1 m)) as [per_number|]; [|discriminate].
  destruct (D_or_zero D (group_str 2 m)) as [total_number|];
    cbn [mbind result_bind]; [|discriminate].
  destruct (per_unit_cost _ _ _) as [q|]; [|discriminate].
  cbn [mbind result_bind mret result_ret]. intros [= <-]. split; reflexivity.
Qed.

Lemma date_sets_date (number : Decimal) (expr : string)
    (state state' : option Amount * option date) :
  re_match COMPOUND expr = None ->
  re_match DATE_RE expr <> None ->
  component number state expr = Ok state' ->
  fst state' = fst state /\
  forall other, component number other expr = Ok (fst other, snd state').
Proof.
  intros Hc Hd. unfold cost_component. rewrite Hc.
  destruct (re_match DATE_RE expr) as [m|]; [|congruence].
  destruct (datetime.date_new _ _ _) as [d|]; [|discriminate].
  cbn [mbind result_bind mret result_ret]. intros [= <-]. split; reflexivity.
Qed.

(** X21. A cost spec and a date may come in either order: the loop accepts
    the one order exactly when it accepts the other, and with the same
    result.  (When both components are at fault, the error raised is that
    of the one that comes first.) *)
Theorem cost_and_date_commute (number : Decimal) (cost_expr date_expr : string)
    (state result : option Amount * option date) :
  re_match COMPOUND cost_expr <> None ->
  re_match COMPOUND date_expr = None ->
  re_match DATE_RE date_expr <> None ->
  (components number [cost_expr; date_expr] state = Ok result <->
   components number [date_expr; cost_expr] state = Ok result).
Proof.
  intros Hc Hdc Hd. cbn [cost_components]. split.
  - destruct (component number state cost_expr) as [s1|] eqn:E1; [|discriminate].
    cbn [mbind result_bind].
    destruct (component number s1 date_expr) as [s2|] eqn:E2; [|discriminate].
    cbn [mbind result_bind]. intros [= <-].
    destruct (cost_spec_sets_cost _ _ _ _ Hc E1) as [Hs1 Hcost].
    destruct (date_sets_date _ _ _ _ Hdc Hd E2) as [Hs2 Hdate].
    rewrite (Hdate state). cbn [mbind result_bind].
    rewrite (Hcost (fst state, snd s2)). cbn [snd].
    f_equal. rewrite (surjective_pairing s2). now rewrite Hs2.
  - destruct (component number state date_expr) as [s1|] eqn:E1; [|discriminate].
    cbn [mbind result_bind].
    destruct (component number s1 cost_expr) as [s2|] eqn:E2; [|discriminate].
    cbn [mbind result_bind]. intros [= <-].
    destruct (date_sets_date _ _ _ _ Hdc Hd E1) as [Hs1 Hdate].
    destruct (cost_spec_sets_cost _ _ _ _ Hc E2) as [Hs2 Hcost].
    rewrite (Hcost state). cbn [mbind result_bind].
    rewrite (Hdate (fst s2, snd state)). cbn [fst].
    f_equal. rewrite (surjective_pairing s2). now rewrite Hs2.
Qed.


End ComponentFacts.

Lemma label_and_merge_are_dropped_witness :
  cost_components number.NUMBER_RE amount.CURRENCY_RE number.D (dec "10")
    ([] ++ "*" :: ["500.00 USD"]) (None, None)
  = cost_components number.NUMBER_RE amount.CURRENCY_RE number.D (dec "10")
      ([] ++ ["500.00 USD"]) (None, None).
Proof.
  apply (label_and_merge_are_dropped number.NUMBER_RE amount.CURRENCY_RE number.D
           (dec "10") [] ["500.00 USD"] "*" (None, None)).
  - vm_compute. reflexivity.
  - vm_compute. reflexivity.
  - right. vm_compute. discriminate.
Defined.

Lemma cost_and_date_commute_witness :
  cost_components number.NUMBER_RE amount.CURRENCY_RE number.D (dec "10")
    ["2014-06-15"; "500.00 USD"] (None, None)
  = Ok (Some (mkAmount (dec "500.00") "USD"), Some (datetime.mkDate 2014 6 15)).
Proof.
  apply (cost_and_date_commute number.NUMBER_RE amount.CURRENCY_RE number.D
           (dec "10") "500.00 USD" "2014-06-15" (None, None)).
  - vm_compute. discriminate.
  - vm_compute. reflexivity.
  - vm_compute. discriminate.
  - vm_compute. reflexivity.
Defined.


(** ** The components of a cost block *)

Lemma split_on_clean (sep : ascii -> bool) (s e : string) :
  In e (Regex.split_on sep s) ->
  Forall (fun a => sep a = false) (list_ascii_of_string e).
Proof.
  revert e. induction s as [|a s IH]; intros e; simpl.
  - intros [<-|[]]. constructor.
  - destruct (sep a) eqn:Ea.
    + intros [<-|H]; [constructor|now apply IH].
    + destruct (Regex.split_on sep s) as [|w ws].
      * intros [<-|[]]. simpl. repeat constructor. exact Ea.
      * intros [<-|H].
        -- simpl. constructor; [exact Ea|]. apply IH. now left.
        -- apply IH. now right.
Qed.

Lemma lstrip_chars (P : ascii -> Prop) (s : string) :
  Forall P (list_ascii_of_string s) ->
  Forall P (list_ascii_of_string (Regex.lstrip s)).
Proof.
  induction s as [|a s IH]; simpl; [auto|].
  intros H. destruct (Regex.is_space a); [|exact H].
  apply IH. now apply Forall_cons in H as [_ H].
Qed.

Lemma rstrip_chars (P : ascii -> Prop) (s : string) :
  Forall P (list_ascii_of_string s) ->
  Forall P (list_ascii_of_string (Regex.rstrip s)).
Proof.
  induction s as [|a s IH]; simpl; [auto|].
  intros H. apply Forall_cons in H as [Ha H]. specialize (IH H).
  destruct (Regex.rstrip s).
  - destruct (Regex.is_space a); simpl; repeat constructor. exact Ha.
  - simpl. constructor; assumption.
Qed.

Lemma rstrip_last (s pre : string) (a : ascii) :
  Regex.rstrip s = pre +:+ String a EmptyString -> Regex.is_space a = false.
Proof.
  revert pre. induction s as [|b s IH]; intros pre; simpl.
  - destruct pre; discriminate.
  - destruct (Regex.rstrip s) as [|c t] eqn:E.
    + destruct (Regex.is_space b) eqn:Eb.
      * destruct pre; discriminate.
      * destruct pre as [|p pre]; simpl.
        -- now intros [= <-].
        -- intros [= _ H]. destruct pre; discriminate.
    + destruct pre as [|p pre]; simpl.
      * discriminate.
      * intros [= _ H]. now apply (IH pre).
Qed.

Lemma date_re_shape (e : string) (m : Regex.groups) :
  Regex.re_match DATE_RE e = Some m ->
  exists a0 a1 a2 a3 s1 b0 b1 s2 c0 c1 rest,
    e = String a0 (String a1 (String a2 (String a3 (String s1 (String b0 (String b1
          (String s2 (String c0 (String c1 rest))))))))) /\
    Regex.one_of "-/" s1 = true /\ Regex.one_of "-/" s2 = true /\
    (rest = EmptyString \/ rest = String "010" EmptyString).
Proof.
  unfold Regex.re_match, DATE_RE, digit. cbn [Regex.seq Regex.run].
  intros H.
  repeat match type of H with
         | match ?s with EmptyString => _ | String _ _ => _ end = _ =>
             destruct s; [discriminate|]
         | (if ?b then _ else _) = _ => destruct b eqn:?; [|discriminate]
         end.
  destruct e as [|a9 [|? ?]]; try discriminate.
  - repeat eexists; eauto.
  - destruct (Ascii.eqb_spec a9 "010") as [->|]; [|discriminate].
    repeat eexists; eauto.
Qed.

Lemma dash_or_slash (a : ascii) :
  Regex.one_of "-/" a = true -> Regex.one_of ",/" a = false -> a = "-"%char.
Proof.
  unfold Regex.one_of. cbn [list_ascii_of_string existsb].
  destruct (Ascii.eqb_spec a "-") as [->|_]; [reflexivity|].
  destruct (Ascii.eqb_spec a "/") as [->|_]; [|discriminate].
  rewrite orb_true_r. discriminate.
Qed.

(** X23. Inside a cost block a date is accepted only when written with
    dashes: a component that the date pattern matches has ten characters,
    the fifth and the eighth being [-].  The slash that the pattern allows
    never gets there, since the block is split at commas and slashes. *)
Theorem block_dates_use_dashes (block expr : string) (m : Regex.groups) :
  In expr (expressions_of block) ->
  Regex.re_match DATE_RE expr = Some m ->
  String.length expr = 10%nat /\
  String.get 4 expr = Some "-"%char /\ String.get 7 expr = Some "-"%char.
Proof.
  intros Hin Hm. unfold expressions_of in Hin.
  apply in_map_iff in Hin as (raw & <- & Hraw).
  pose proof (split_on_clean _ _ _ Hraw) as Hclean.
  apply (lstrip_chars (fun a => Regex.one_of ",/" a = false)) in Hclean.
  apply rstrip_chars in Hclean. fold (Regex.strip raw) in Hclean.
  destruct (date_re_shape _ _ Hm)
    as (a0 & a1 & a2 & a3 & s1 & b0 & b1 & s2 & c0 & c1 & rest & He & H1 & H2 & Hrest).
  rewrite He in Hclean. simpl in Hclean.
  repeat match type of Hclean with
         | Forall _ (_ :: _) =>
             let Hh := fresh "Hh" in apply Forall_cons in Hclean as [Hh Hclean]
         end.
  assert (s1 = "-"%char) as -> by now apply dash_or_slash.
  assert (s2 = "-"%char) as -> by now apply dash_or_slash.
  destruct Hrest as [->| ->].
  - rewrite He. repeat split.
  - exfalso.
    assert (Hsp : Regex.is_space "010" = false); [|discriminate Hsp].
    apply (rstrip_last (Regex.lstrip raw)
             (String a0 (String a1 (String a2 (String a3 (String "-" (String b0
                (String b1 (String "-" (String c0 (String c1 EmptyString))))))))))).
    exact He.
Qed.

Lemma block_dates_use_dashes_witness :
  String.length "2014-06-15" = 10%nat /\
  String.get 4 "2014-06-15" = Some "-"%char /\
  String.get 7 "2014-06-15" = Some "-"%char.
Proof.
  apply (block_dates_use_dashes "500.00 USD, 2014-06-15 " "2014-06-15"
           [(3%nat, "15"); (2%nat, "06"); (1%nat, "2014")]).
  - vm_compute. tauto.
  - vm_compute. reflexivity.
Defined.

Section UnrecognizedFacts.

Import Regex.

Variable NUMBER_RE : regex.
Variable CURRENCY_RE : regex.
Variable D : string -> result Decimal.

Local Abbreviation components := (cost_components NUMBER_RE CURRENCY_RE D).

(** X24. When the unit number is read and the components before it are
    accepted, a component that matches none of the recognized forms ends the
    parse with the error [Invalid cost component] that quotes this very
    component, whatever comes after it. *)
Theorem unrecognized_component_is_named (text : string) (m : groups)
    (pre post : list string) (expr : string) (number : Decimal) :
  re_match (POSITION_RE NUMBER_RE CURRENCY_RE) text = Some m ->
  group_str 3 m <> EmptyString ->
  expressions_of (group_str 3 m) = pre ++ expr :: post ->
  D (group_str 1 m) = Ok number ->
  is_ok (components number pre (None, None)) = true ->
  unrecognized NUMBER_RE CURRENCY_RE expr ->
  from_string NUMBER_RE CURRENCY_RE D text
  = Raise (ValueError ("Invalid cost component: '" +:+ expr +:+ "'")).
Proof.
  intros Hm Hb He Hnumber Hpre (Hc & Hd & Hl & Hg). unfold from_string.
  rewrite Hm, Hnumber. cbn [mbind result_bind].
  apply String.eqb_neq in Hb. rewrite Hb, He, components_app.
  destruct (components _ pre _) as [state1|]; [|discriminate].
  cbn [mbind result_bind cost_components]. unfold cost_component.
  now rewrite Hc, Hd, Hl, Hg.
Qed.

End UnrecognizedFacts.

Lemma unrecognized_component_is_named_witness :
  from_string_std "10 HOOL {500.00 USD,}"
  = Raise (ValueError "Invalid cost component: ''").
Proof.
  apply (unrecognized_component_is_named number.NUMBER_RE amount.CURRENCY_RE number.D
           "10 HOOL {500.00 USD,}"
           [(3%nat, "500.00 USD,"); (2%nat, "HOOL"); (1%nat, "10")]
           ["500.00 USD"] [] EmptyString (dec "10")).
  - vm_compute. reflexivity.
  - discriminate.
  - vm_compute. reflexivity.
  - apply (number_D_dec "10"). reflexivity.
  - vm_compute. reflexivity.
  - repeat split; vm_compute; reflexivity.
Defined.

(** ** Currency pairs *)

Section CurrencyPairFacts.

Variable amount_bool : Amount -> bool.

(** X25. The pair of a lot starts with the lot's currency; when it names a
    cost currency, that is the currency of the position's cost projection,
    whose own pair names none. *)
Theorem currency_pair_of_cost (p : Position) (c : string) :
  fst (lot_currency_pair amount_bool (lot p)) = currency (lot p) /\
  snd (lot_currency_pair amount_bool (lot (position.cost p))) = None /\
  (snd (lot_currency_pair amount_bool (lot p)) = Some c ->
   lot_currency_pair amount_bool (lot (position.cost p)) = (c, None)).
Proof.
  unfold lot_currency_pair, position.cost.
  destruct (cost (lot p)) as [k|] eqn:E; simpl; rewrite ?E; repeat split;
    try discriminate.
  destruct (amount_bool k); [|discriminate]. now intros [= ->].
Qed.

End CurrencyPairFacts.

Lemma currency_pair_of_cost_witness :
  lot_currency_pair (fun _ => true)
    (lot (position.cost
            (mkPosition (mkLot "HOOL" (Some (mkAmount (dec "500") "USD")) None)
                        (dec "10"))))
  = ("USD", None).
Proof.
  apply (proj2 (proj2 (currency_pair_of_cost (fun _ => true)
           (mkPosition (mkLot "HOOL" (Some (mkAmount (dec "500") "USD")) None)
                       (dec "10")) "USD"))).
  reflexivity.
Defined.

(** * Further properties of the summarization engine *)

Lemma pred_day_before (d : date) : datetime.ltb (datetime.pred_day d) d = true.
Proof.
  unfold datetime.pred_day, datetime.ltb.
  destruct (Z.ltb_spec 1 (datetime.day d)); simpl.
  - rewrite !Z.eqb_refl. simpl. apply Z.ltb_lt. lia.
  - destruct (Z.ltb_spec 1 (datetime.month d)); simpl.
    + rewrite Z.eqb_refl. simpl.
      destruct (Z.eqb_spec (datetime.month d - 1) (datetime.month d)); [lia|].
      simpl. apply Z.ltb_lt. lia.
    + destruct (Z.eqb_spec (datetime.year d - 1) (datetime.year d)); [lia|].
      simpl. apply Z.ltb_lt. lia.
Qed.

Lemma before_app (a b : list Directive) (d : date) :
  Forall (fun e => datetime.ltb (date_of e) d = true) a ->
  before (a ++ b) (Some d) = a ++ before b (Some d).
Proof.
  induction 1 as [|e a He _ IH]; simpl; [reflexivity|].
  now rewrite He, IH.
Qed.

Lemma before_of_rest (entries : list Directive) (cutoff : option date) :
  before (drop (List.length (before entries cutoff)) entries) cutoff = [].
Proof.
  induction entries as [|e rest IH]; simpl; [now destruct cutoff|].
  destruct cutoff as [d|].
  - destruct (datetime.ltb (date_of e) d) eqn:E; simpl; [exact IH|].
    now rewrite E.
  - simpl. exact IH.
Qed.


(** X28. [create_entries_from_balances] creates no entry exactly when
    every balance is empty; accounts with an empty balance are passed over. *)
Theorem no_entries_iff_all_empty (balances : gmap string Inventory) (d : date)
    (target : string) (forward : bool) (flag : ascii) (template : string) :
  create_entries_from_balances balances d target forward flag template = []
  <-> map_Forall (fun _ inv => inventory.is_empty inv = true) balances.
Proof.
  unfold create_entries_from_balances, sorted_items.
  rewrite map_Forall_to_list.
  transitivity (List.filter (fun item => negb (inventory.is_empty (snd item)))
                            (merge_sort item_le (map_to_list balances)) = []).
  { split; [apply fmap_nil_inv|now intros ->]. }
  split.
  - intros Hnone. apply Forall_forall. intros [acc inv] Hin. simpl.
    destruct (inventory.is_empty inv) eqn:E; [reflexivity|].
    assert (Hin' : In (acc, inv)
               (List.filter (fun item => negb (inventory.is_empty (snd item)))
                  (merge_sort item_le (map_to_list balances)))).
    { apply filter_In. split; [|simpl; now rewrite E].
      apply list_elem_of_In. rewrite merge_sort_Permutation. exact Hin. }
    rewrite Hnone in Hin'. destruct Hin'.
  - intros Hall.
    destruct (List.filter _ _) as [|[acc inv] rest] eqn:Ef; [reflexivity|].
    assert (Hin : In (acc, inv)
               (List.filter (fun item => negb (inventory.is_empty (snd item)))
                  (merge_sort item_le (map_to_list balances))))
      by (rewrite Ef; now left).
    apply filter_In in Hin as [Hin Hne]. simpl in Hne.
    apply list_elem_of_In in Hin. rewrite merge_sort_Permutation in Hin.
    rewrite Forall_forall in Hall. specialize (Hall _ Hin). simpl in Hall.
    rewrite Hall in Hne. discriminate.
Qed.

(** * The sort order as a strict order *)

Section StrictOrderFacts.

Variable amount_bool : Amount -> bool.
Variable NULL_AMOUNT : Amount.
Variable amount_lt : Amount -> Amount -> bool.

Local Abbreviation lt := (__lt__ amount_bool NULL_AMOUNT amount_lt).

(** X29. Whenever the order of amounts is asymmetric and transitive, so is
    the order of positions: sorting positions is then well defined. *)
Theorem lt_strict_order :
  (forall a b, amount_lt a b = true -> amount_lt b a = false) ->
  (forall a b c, amount_lt a b = true -> amount_lt b c = true -> amount_lt a c = true) ->
  (forall p q : Position,
     __lt__ amount_bool NULL_AMOUNT amount_lt p q = true ->
     __lt__ amount_bool NULL_AMOUNT amount_lt q p = false) /\
  (forall p q r : Position,
     __lt__ amount_bool NULL_AMOUNT amount_lt p q = true ->
     __lt__ amount_bool NULL_AMOUNT amount_lt q r = true ->
     __lt__ amount_bool NULL_AMOUNT amount_lt p r = true).
Proof.
  intros Hasym Htrans. unfold __lt__. split.
  - intros p q. destruct (sortkey _ _ p) as [[o1 c1] n1],
                         (sortkey _ _ q) as [[o2 c2] n2].
    unfold tuple_lt.
    destruct (Z.eqb_spec o1 o2) as [->|Ho]; simpl.
    + rewrite Z.eqb_refl. simpl.
      destruct (amount.eqb c1 c2) eqn:Ec; simpl.
      * apply amount_eqb_eq in Ec. subst c2.
        replace (amount.eqb c1 c1) with true by (symmetry; now apply amount_eqb_eq).
        simpl. unfold number.ltb. intros H. apply bool_decide_eq_true in H.
        apply bool_decide_eq_false. apply Qcle_not_lt. now apply Qclt_le_weak.
      * replace (amount.eqb c2 c1) with false; [simpl; apply Hasym|].
        symmetry. apply not_true_is_false. intros E. apply amount_eqb_eq in E.
        subst c2. replace (amount.eqb c1 c1) with true in Ec; [discriminate|].
        symmetry. now apply amount_eqb_eq.
    + destruct (Z.eqb_spec o2 o1) as [E|_]; [congruence|]. simpl.
      rewrite Z.ltb_lt. intros H. apply Z.ltb_ge. lia.
  - intros p q r. destruct (sortkey _ _ p) as [[o1 c1] n1],
                           (sortkey _ _ q) as [[o2 c2] n2],
                           (sortkey _ _ r) as [[o3 c3] n3].
    unfold tuple_lt.
    destruct (Z.eqb_spec o1 o2) as [->|H12]; simpl.
    + destruct (Z.eqb_spec o2 o3) as [->|H23]; simpl; [|auto].
      destruct (amount.eqb c1 c2) eqn:E12; simpl.
      * apply amount_eqb_eq in E12. subst c2.
        destruct (amount.eqb c1 c3) eqn:E13; simpl; [|auto].
        unfold number.ltb. rewrite !bool_decide_eq_true. apply Qclt_trans.
      * destruct (amount.eqb c2 c3) eqn:E23; simpl.
        -- apply amount_eqb_eq in E23. subst c3. rewrite E12. simpl. auto.
        -- intros H1 H2. pose proof (Htrans _ _ _ H1 H2) as H13.
           destruct (amount.eqb c1 c3) eqn:E13; simpl; [|exact H13].
           apply amount_eqb_eq in E13. subst c3.
           rewrite (Hasym _ _ H1) in H2. discriminate.
    + rewrite Z.ltb_lt. intros Hlt12.
      destruct (Z.eqb_spec o2 o3) as [->|H23]; simpl.
      * intros _. destruct (Z.eqb_spec o1 o3) as [E|_]; [congruence|].
        simpl. now apply Z.ltb_lt.
      * rewrite Z.ltb_lt. intros Hlt23.
        destruct (Z.eqb_spec o1 o3) as [E|_]; [lia|]. simpl. apply Z.ltb_lt. lia.
Qed.

End StrictOrderFacts.

Lemma lt_strict_order_witness :
  __lt__ (fun _ => true) (mkAmount ZERO EmptyString) (fun _ _ => false)
    (mkPosition (mkLot "CAD" None None) (dec "1"))
    (mkPosition (mkLot "USD" None None) (dec "1")) = false.
Proof.
  apply (proj1 (lt_strict_order (fun _ => true) (mkAmount ZERO EmptyString)
                  (fun _ _ => false)
                  (fun _ _ _ => eq_refl) (fun _ _ _ H _ => H))
          (mkPosition (mkLot "USD" None None) (dec "1"))
          (mkPosition (mkLot "CAD" None None) (dec "1"))).
  reflexivity.
Defined.

(** ** Balances across a summarization *)

(** The balance of one account is what booking the positions of its own
    postings, in order, gives. *)
Lemma book_posting_view (ps : list Posting) (m : gmap string Inventory) (acc : string) :
  default [] (fold_left book_posting ps m !! acc)
  = fold_left inventory.add_position
      (position <$> List.filter (fun p => String.eqb (account p) acc) ps)
      (default [] (m !! acc)).
Proof.
  revert m. induction ps as [|p ps IH]; intros m; simpl; [reflexivity|].
  rewrite IH. unfold book_posting at 1.
  destruct (String.eqb_spec (account p) acc) as [->|Hne]; simpl.
  - now rewrite lookup_insert_eq.
  - now rewrite lookup_insert_ne.
Qed.

Lemma book_entry_view (es : list Directive) (m : gmap string Inventory) (acc : string) :
  default [] (fold_left book_entry es m !! acc)
  = fold_left inventory.add_position
      (position <$> List.filter (fun p => String.eqb (account p) acc)
                                (concat (postings_of <$> es)))
      (default [] (m !! acc)).
Proof.
  revert m. induction es as [|e es IH]; intros m; simpl; [reflexivity|].
  rewrite IH. unfold book_entry at 1. rewrite book_posting_view.
  rewrite List.filter_app, fmap_app, fold_left_app. reflexivity.
Qed.

Lemma add_new_lot (inv : Inventory) (l : Lot) (n : Decimal) :
  l ∉ lot <$> inv -> inventory.add inv l n = inv ++ [mkPosition l n].
Proof.
  induction inv as [|p inv IH]; simpl; [reflexivity|].
  cbn [fmap list_fmap]. rewrite not_elem_of_cons. intros [Hne Hnotin].
  destruct (Lot_eqb (lot p) l) eqn:E.
  - apply Lot_eqb_eq in E. congruence.
  - now rewrite IH.
Qed.

Lemma add_keeps_lots_distinct (inv : Inventory) (l : Lot) (n : Decimal) :
  NoDup (lot <$> inv) -> NoDup (lot <$> inventory.add inv l n).
Proof.
  intros Hnodup. induction inv as [|p inv IH]; simpl.
  - apply NoDup_singleton.
  - cbn [fmap list_fmap] in Hnodup. apply NoDup_cons in Hnodup as [Hnotin Hnodup].
    destruct (Lot_eqb (lot p) l) eqn:E; cbn [fmap list_fmap].
    + simpl. now apply NoDup_cons.
    + apply NoDup_cons. split; [|now apply IH].
      intros Hin. apply add_lots in Hin as [Hin|Hin]; [tauto|].
      rewrite Hin, Lot_eqb_refl in E. discriminate.
Qed.

Lemma booking_keeps_lots_distinct (ps : list Position) (inv : Inventory) :
  NoDup (lot <$> inv) -> NoDup (lot <$> fold_left inventory.add_position ps inv).
Proof.
  revert inv. induction ps as [|p ps IH]; intros inv H; simpl; [exact H|].
  apply IH. now apply add_keeps_lots_distinct.
Qed.

Lemma rebooking_distinct_lots (inv acc : Inventory) :
  NoDup (lot <$> (acc ++ inv)) ->
  fold_left inventory.add_position inv acc = acc ++ inv.
Proof.
  revert acc. induction inv as [|p inv IH]; intros acc H; simpl.
  - now rewrite app_nil_r.
  - unfold inventory.add_position. rewrite add_new_lot.
    + destruct p as [lp np]. simpl. rewrite IH; rewrite <- app_assoc; [reflexivity|exact H].
    + rewrite fmap_app in H. apply NoDup_app in H as (_ & Hdisj & _).
      intros Hin. apply (Hdisj _ Hin). cbn [fmap list_fmap]. apply elem_of_cons. now left.
Qed.

Lemma units_of_own (inv : Inventory) (p : Position) :
  NoDup (lot <$> inv) -> In p inv -> inventory.units_of inv (lot p) = number p.
Proof.
  unfold inventory.units_of. induction inv as [|q inv IH]; [intros _ []|].
  cbn [fmap list_fmap]. intros Hnodup. apply NoDup_cons in Hnodup as [Hnotin Hnodup].
  intros [<-|Hin]; simpl.
  - now rewrite Lot_eqb_refl.
  - destruct (Lot_eqb (lot q) (lot p)) eqn:E; [|now apply IH].
    exfalso. apply Hnotin. apply Lot_eqb_eq in E. rewrite E.
    apply list_elem_of_fmap. exists p. split; [reflexivity|now apply list_elem_of_In].
Qed.

Lemma inventory_eqb_refl (inv : Inventory) :
  NoDup (lot <$> inv) -> inventory.eqb inv inv = true.
Proof.
  intros H. unfold inventory.eqb.
  assert (Hc : inventory.covers inv inv = true); [|now rewrite Hc].
  unfold inventory.covers. apply forallb_forall. intros p Hin.
  apply number_eqb_eq. symmetry. now apply units_of_own.
Qed.

Lemma inventory_eqb_empty (inv : Inventory) :
  inventory.is_empty inv = true -> inventory.eqb [] inv = true.
Proof.
  intros H. unfold inventory.eqb, inventory.covers. simpl.
  apply forallb_forall. intros p Hin.
  unfold inventory.is_empty in H. rewrite forallb_forall in H. now apply H.
Qed.

Lemma balance_view (es : list Directive) (acc : string) :
  default [] (fold_left book_entry es ∅ !! acc)
  = fold_left inventory.add_position
      (position <$> List.filter (fun p => String.eqb (account p) acc)
                                (concat (postings_of <$> es))) [].
Proof. now rewrite book_entry_view, lookup_empty. Qed.

Lemma balance_lots_distinct (es : list Directive) (acc : string) :
  NoDup (lot <$> default [] (fold_left book_entry es ∅ !! acc)).
Proof.
  rewrite balance_view. apply booking_keeps_lots_distinct. constructor.
Qed.

Lemma filter_postings_for (a acc : string) (inv : Inventory) :
  List.filter (fun p => String.eqb (account p) acc) (postings_for a inv)
  = if String.eqb a acc then postings_for a inv else [].
Proof.
  unfold postings_for, inventory.get_positions.
  destruct (String.eqb a acc) eqn:E;
    induction inv as [|p inv IH]; cbn [fmap list_fmap List.filter account];
    rewrite ?E; [reflexivity|now f_equal|reflexivity|exact IH].
Qed.

Lemma opening_positions_step (d : date) (opening acc : string) (flag : ascii)
    (template : string) (item : string * Inventory) :
  acc <> opening ->
  position <$> List.filter (fun p => String.eqb (account p) acc)
                 (postings_of (entry_from_balance d opening true flag template item))
  = if String.eqb (fst item) acc then snd item else [].
Proof.
  intros Hne. unfold entry_from_balance. cbn [postings_of].
  rewrite List.filter_app, !filter_postings_for.
  replace (String.eqb opening acc) with false
    by (symmetry; apply String.eqb_neq; congruence).
  rewrite app_nil_r. destruct (String.eqb (fst item) acc); [|reflexivity].
  apply positions_of_postings_for.
Qed.

Lemma opening_positions (d : date) (opening acc : string) (flag : ascii)
    (template : string) (items : list (string * Inventory)) :
  acc <> opening ->
  NoDup (fst <$> items) ->
  position <$> List.filter (fun p => String.eqb (account p) acc)
                 (concat (postings_of <$>
                    (entry_from_balance d opening true flag template <$> items)))
  = default [] (snd <$> List.find (fun item => String.eqb (fst item) acc) items).
Proof.
  intros Hne. induction items as [|item items IH]; [reflexivity|].
  cbn [fmap list_fmap concat List.find]. intros Hnodup.
  apply NoDup_cons in Hnodup as [Hnotin Hnodup].
  rewrite List.filter_app, fmap_app, (opening_positions_step _ _ _ _ _ _ Hne).
  change (list_fmap _ _ postings_of
            (list_fmap _ _ (entry_from_balance d opening true flag template) items))
    with (postings_of <$> (entry_from_balance d opening true flag template <$> items)).
  rewrite (IH Hnodup).
  destruct (String.eqb_spec (fst item) acc) as [E|E]; [|reflexivity].
  simpl.
  destruct (List.find (fun item0 => String.eqb (fst item0) acc) items) as [x|] eqn:Ef.
  - exfalso. apply find_some in Ef as [Hin Hx]. apply String.eqb_eq in Hx.
    apply Hnotin. rewrite E, <- Hx. apply list_elem_of_fmap. exists x.
    split; [reflexivity|now apply list_elem_of_In].
  - simpl. apply app_nil_r.
Qed.

Lemma filter_keys_distinct {A : Type} (f : string * A -> bool) (l : list (string * A)) :
  NoDup (fst <$> l) -> NoDup (fst <$> List.filter f l).
Proof.
  induction l as [|x l IH]; simpl; [auto|].
  cbn [fmap list_fmap]. intros H. apply NoDup_cons in H as [Hnotin H].
  destruct (f x); [|now apply IH].
  cbn [fmap list_fmap]. apply NoDup_cons. split; [|now apply IH].
  intros Hin. apply Hnotin.
  apply list_elem_of_fmap in Hin as (y & Hy & Hin).
  apply list_elem_of_fmap. exists y. split; [exact Hy|].
  apply list_elem_of_In. apply list_elem_of_In in Hin.
  now apply filter_In in Hin as [Hin _].
Qed.

Lemma nonempty_items_distinct (balances : gmap string Inventory) :
  NoDup (fst <$> List.filter (fun item => negb (inventory.is_empty (snd item)))
                             (sorted_items balances)).
Proof.
  apply filter_keys_distinct. unfold sorted_items.
  rewrite merge_sort_Permutation. apply NoDup_fst_map_to_list.
Qed.

Lemma nonempty_items_lookup (balances : gmap string Inventory) (acc : string)
    (inv : Inventory) :
  In (acc, inv) (List.filter (fun item => negb (inventory.is_empty (snd item)))
                             (sorted_items balances))
  <-> balances !! acc = Some inv /\ inventory.is_empty inv = false.
Proof.
  rewrite filter_In. unfold sorted_items. simpl.
  rewrite <- list_elem_of_In, merge_sort_Permutation, elem_of_map_to_list.
  now rewrite negb_true_iff.
Qed.

(** X17. Summarizing keeps the balance of every account other than the
    opening account: booking the summarized entries up to the cutoff gives,
    account by account, an inventory equal to the one the original entries
    give, whatever the order and the dates of the input. *)
Theorem summarize_keeps_balances (entries : list Directive) (cutoff : date)
    (opening acc : string) :
  acc <> opening ->
  inventory.eqb
    (default [] (fst (balance_by_account
                        (fst (summarize.summarize entries cutoff opening))
                        (Some cutoff)) !! acc))
    (default [] (fst (balance_by_account entries (Some cutoff)) !! acc)) = true.
Proof.
  intros Hne. unfold summarize.summarize, balance_by_account. cbn [fst].
  remember (fold_left book_entry (before entries (Some cutoff)) ∅) as old eqn:Hold_def.
  remember (List.filter (fun item => negb (inventory.is_empty (snd item)))
                        (sorted_items old)) as items eqn:Hitems.
  assert (Hhead : before (create_entries_from_balances old (datetime.pred_day cutoff)
                            opening true flags.FLAG_SUMMARIZE
                            "Opening balance for '{account}' (Summarization)"
                          ++ drop (List.length (before entries (Some cutoff))) entries)
                         (Some cutoff)
                  = create_entries_from_balances old (datetime.pred_day cutoff)
                      opening true flags.FLAG_SUMMARIZE
                      "Opening balance for '{account}' (Summarization)").
  { rewrite before_app, before_of_rest, app_nil_r; [reflexivity|].
    unfold create_entries_from_balances. apply List.Forall_forall.
    intros e He. apply in_map_iff in He as (item & <- & _).
    simpl. apply pred_day_before. }
  rewrite Hhead, balance_view. unfold create_entries_from_balances.
  rewrite (opening_positions _ _ _ _ _ _ Hne (nonempty_items_distinct old)).
  rewrite <- Hitems.
  destruct (List.find (fun item => String.eqb (fst item) acc) items)
    as [[a inv]|] eqn:Ef; simpl.
  - apply find_some in Ef as [Hin Ha]. simpl in Ha. apply String.eqb_eq in Ha.
    subst a. rewrite Hitems in Hin. apply nonempty_items_lookup in Hin as [Hold _].
    assert (Hd : NoDup (lot <$> inv)).
    { subst old.
      exact (eq_ind _ (fun o : option Inventory => NoDup (lot <$> default [] o))
                    (balance_lots_distinct _ acc) _ Hold). }
    unfold Inventory in *. rewrite Hold. simpl.
    pose proof (rebooking_distinct_lots inv [] Hd) as Hre.
    unfold Inventory in Hre. rewrite Hre.
    now apply inventory_eqb_refl.
  - unfold Inventory in *.
    destruct (old !! acc) as [inv|] eqn:Hold; simpl; [|reflexivity].
    apply inventory_eqb_empty.
    destruct (inventory.is_empty inv) eqn:Ee; [reflexivity|].
    assert (Hin : In (acc, inv) items)
      by (rewrite Hitems; apply nonempty_items_lookup; auto).
    apply (find_none _ _ Ef) in Hin. simpl in Hin.
    rewrite String.eqb_refl in Hin. discriminate.
Qed.

Lemma summarize_keeps_balances_witness :
  inventory.eqb
    (default [] (fst (balance_by_account
                        (fst (summarize.summarize fixtures.clamp_entries
                                (datetime.mkDate 2012 6 1)
                                "Equity:Opening-Balances"))
                        (Some (datetime.mkDate 2012 6 1))) !! "Assets:US:Checking"))
    (default [] (fst (balance_by_account fixtures.clamp_entries
                        (Some (datetime.mkDate 2012 6 1))) !! "Assets:US:Checking"))
  = true.
Proof.
  apply (summarize_keeps_balances fixtures.clamp_entries
           (datetime.mkDate 2012 6 1) "Equity:Opening-Balances" "Assets:US:Checking").
  discriminate.
Defined.
